(** * Sports prediction API (main.py): model and verification

    The file embeds the two functions of [main.py] that carry logic, the
    scoring function [predict_match_outcome] and the Flask view [predict],
    together with the pieces of the Python runtime they rely on: dynamic
    values and their truthiness, equality and containment, binary64
    floating-point arithmetic with [min] and [round], and the calls into
    the [random] module. *)

From Stdlib Require Import ZArith Lia Reals Lra Floats Uint63 Bool List String Ascii.
From Stdlib Require Import Permutation.
Import ListNotations.
Set Warnings "-inexact-float,-register-all".
Local Open Scope string_scope.
Local Open Scope Z_scope.

(** ** Python values

    [request.get_json()] yields [None], a bool, a number, a str, a list or a
    dict.  Numbers are modelled as integers; a dict is an association list
    in insertion order with distinct keys, read by first match. *)

Inductive pyval : Type :=
| VNone
| VBool (b : bool)
| VInt (n : Z)
| VStr (s : string)
| VList (l : list pyval)
| VDict (d : list (string * pyval)).

Definition type_name (v : pyval) : string :=
  match v with
  | VNone => "NoneType"
  | VBool _ => "bool"
  | VInt _ => "int"
  | VStr _ => "str"
  | VList _ => "list"
  | VDict _ => "dict"
  end.

(** Exceptions raised by the operations the program uses. *)
Inductive exn : Type :=
| AttributeError (type attr : string)
| TypeError (type : string).

(** [str(e)] *)
Definition exn_str (e : exn) : string :=
  match e with
  | AttributeError type attr =>
      "'" ++ type ++ "' object has no attribute '" ++ attr ++ "'"
  | TypeError type => "argument of type '" ++ type ++ "' is not iterable"
  end.

Inductive result (A : Type) : Type :=
| Ok (a : A)
| Raise (e : exn).
Arguments Ok {A} a.
Arguments Raise {A} e.

Definition bind {A B : Type} (r : result A) (k : A -> result B) : result B :=
  match r with
  | Ok a => k a
  | Raise e => Raise e
  end.

Notation "x <- r ;; k" := (bind r (fun x => k))
  (at level 61, r at next level, right associativity).

(** [bool(v)], as tested by [not data]. *)
Definition truthy (v : pyval) : bool :=
  match v with
  | VNone => false
  | VBool b => b
  | VInt n => negb (n =? 0)
  | VStr s => match s with EmptyString => false | _ => true end
  | VList l => match l with [] => false | _ => true end
  | VDict d => match d with [] => false | _ => true end
  end.

Fixpoint lookup (key : string) (d : list (string * pyval)) : option pyval :=
  match d with
  | [] => None
  | (k, v) :: rest => if String.eqb k key then Some v else lookup key rest
  end.

(** [x == y] *)
Fixpoint py_eq (x y : pyval) {struct x} : bool :=
  match x, y with
  | VNone, VNone => true
  | VBool a, VBool b => Bool.eqb a b
  | VBool a, VInt n => n =? (if a then 1 else 0)
  | VInt n, VBool a => n =? (if a then 1 else 0)
  | VInt a, VInt b => a =? b
  | VStr a, VStr b => String.eqb a b
  | VList a, VList b =>
      (fix all2 (a b : list pyval) : bool :=
         match a, b with
         | [], [] => true
         | x :: a', y :: b' => py_eq x y && all2 a' b'
         | _, _ => false
         end) a b
  | VDict a, VDict b =>
      (List.length a =? List.length b)%nat &&
      (fix sub (a : list (string * pyval)) : bool :=
         match a with
         | [] => true
         | (k, v) :: a' =>
             match lookup k b with
             | Some w => py_eq v w && sub a'
             | None => false
             end
         end) a
  | _, _ => false
  end.

(** [seq.count('W')]: lists count the elements equal to ['W'], strings count
    the occurrences of the character; other values have no [count]. *)
Definition W : string := "W".

Definition count_W (l : list pyval) : Z :=
  Z.of_nat (List.length (filter (fun x => py_eq x (VStr W)) l)).

Fixpoint count_char (c : ascii) (s : string) : Z :=
  match s with
  | EmptyString => 0
  | String a rest => (if Ascii.eqb a c then 1 else 0) + count_char c rest
  end.

Definition py_count (seq : pyval) : result Z :=
  match seq with
  | VList l => Ok (count_W l)
  | VStr s => Ok (count_char "W"%char s)
  | _ => Raise (AttributeError (type_name seq) "count")
  end.

(** [key in d] for a dict. *)
Definition has_key (key : string) (d : list (string * pyval)) : bool :=
  existsb (fun kv => String.eqb (fst kv) key) d.

(** [field in data] *)
Definition py_contains (field : string) (data : pyval) : result bool :=
  match data with
  | VDict d => Ok (has_key field d)
  | VList l => Ok (existsb (fun x => py_eq x (VStr field)) l)
  | VStr s => Ok (match index 0 field s with Some _ => true | None => false end)
  | _ => Raise (TypeError (type_name data))
  end.

(** [data.get(key)]: the value under [key], or [None]. *)
Definition dict_get (d : list (string * pyval)) (key : string) : pyval :=
  match lookup key d with Some v => v | None => VNone end.

Definition py_get (data : pyval) (key : string) : result pyval :=
  match data with
  | VDict d => Ok (dict_get d key)
  | _ => Raise (AttributeError (type_name data) "get")
  end.

(** ** Floating point

    Python floats are IEEE 754 binary64 values, here the primitive floats. *)

(** [int -> float] as done by [n * 0.05]; exact below [2^53], and the counts
    converted here are list lengths, below [2^63]. *)
Definition float_of_int (n : Z) : float := of_uint63 (Uint63.of_Z n).

(** [min(a, b)]: the first argument unless the second is smaller. *)
Definition py_min (a b : float) : float := if (b <? a)%float then b else a.

(** Division rounded to the nearest integer, ties to even ([0 <= n], [0 < d]). *)
Definition round_half_even (n d : Z) : Z :=
  let q := n / d in
  match 2 * (n mod d) ?= d with
  | Lt => q
  | Gt => q + 1
  | Eq => if Z.even q then q else q + 1
  end.

(** The float nearest to [n / d] ([0 < n], [0 < d]), ties to even. *)
Definition nearest_float (n d : Z) : float :=
  let '(q, e, l) := SFdiv_core_binary prec emax n 0 d 0 in
  SF2Prim (binary_round_aux prec emax false q e l).

(** [round(x, ndigits)] for [0 <= ndigits]: the exact binary value is rounded
    half-even to [ndigits] decimals, and the decimal is read back as the
    nearest float. *)
Definition py_round (x : float) (ndigits : Z) : float :=
  match Prim2SF x with
  | S754_finite s m e =>
      let k := if 0 <=? e
               then Z.pos m * 2 ^ e * 10 ^ ndigits
               else round_half_even (Z.pos m * 10 ^ ndigits) (2 ^ (- e)) in
      let r := if k =? 0 then 0%float else nearest_float k (10 ^ ndigits) in
      if s then (- r)%float else r
  | _ => x
  end.

(** ** The [random] module

    The generator is replaced by the values it hands out: [pick] decides
    [random.choice], [frac] is the 53-bit integer behind [random.random()]. *)
Record rng : Type := { pick : nat; frac : Z }.

(** [random.choice(seq)] is [seq[randbelow(len(seq))]]. *)
Definition choice {A : Type} (rnd : rng) (seq : list A) (default : A) : A :=
  nth (pick rnd mod List.length seq) seq default.

(** [random.random()]: a multiple of [2^-53] in [[0, 1)]. *)
Definition random (rnd : rng) : float :=
  (of_uint63 (Uint63.of_Z (frac rnd mod 2 ^ 53)) * 0x1p-53)%float.

(** [random.uniform(a, b)] is [a + (b - a) * random()]. *)
Definition uniform (rnd : rng) (a b : float) : float :=
  (a + (b - a) * random rnd)%float.

(** ** The prediction model *)

(** The two dictionaries [predict_match_outcome] returns. *)
Inductive prediction : Type :=
| Win (winning_team losing_team : pyval) (confidence : float)
| Draw (confidence : float).

(** Lines 59-67: cap the confidence, round it and build the win record. *)
Definition win_record (winner loser : pyval) (confidence : float) : prediction :=
  let confidence := py_min confidence 0.95 in
  Win winner loser (py_round confidence 2).

Definition predict_match_outcome (rnd : rng) (sport : string)
    (team_a team_b team_a_form team_b_form : pyval) : result prediction :=
  team_a_wins <- py_count team_a_form ;;
  team_b_wins <- py_count team_b_form ;;
  if team_a_wins >? team_b_wins then
    Ok (win_record team_a team_b
          (0.5 + float_of_int (team_a_wins - team_b_wins) * 0.05)%float)
  else if team_b_wins >? team_a_wins then
    Ok (win_record team_b team_a
          (0.5 + float_of_int (team_b_wins - team_a_wins) * 0.05)%float)
  else if String.eqb sport "football" then
    let outcome := choice rnd [team_a; team_b; VStr "Draw"] VNone in
    if py_eq outcome (VStr "Draw") then
      Ok (Draw (uniform rnd 0.3 0.5))
    else
      let winner := outcome in
      let loser := if py_eq winner team_a then team_b else team_a in
      Ok (win_record winner loser 0.5)
  else
    let winner := choice rnd [team_a; team_b] VNone in
    let loser := if py_eq winner team_a then team_b else team_a in
    Ok (win_record winner loser 0.5).

(** Lines 38, 60 and 66 in one: the confidence reported for a win by
    [d] more wins. *)
Definition confidence (d : Z) : float :=
  py_round (py_min (0.5 + float_of_int d * 0.05) 0.95) 2.

(** ** The [/predict] endpoint *)

(** What the view hands to Flask: a JSON body and a status. *)
Inductive body : Type :=
| JsonError (error : string)
| JsonErrorDetails (error details : string)
| JsonPrediction (p : prediction).

Definition response : Type := (body * Z)%type.

Definition required_fields : list string :=
  ["sport"; "team_a"; "team_b"; "team_a_form"; "team_b_form"].

Definition supported_sports : list string := ["football"; "basketball"; "rugby"].

(** [str(supported_sports)] inside the f-string. *)
Definition repr_strs (l : list string) : string :=
  "[" ++ String.concat ", " (map (fun s => "'" ++ s ++ "'") l) ++ "]".

(** The loop of lines 86-88: the first required field that is not in [data]. *)
Fixpoint first_missing (fields : list string) (data : pyval) : result (option string) :=
  match fields with
  | [] => Ok None
  | field :: rest =>
      present <- py_contains field data ;;
      if negb present then Ok (Some field) else first_missing rest data
  end.

Section Endpoint.

(** [str.lower], the case mapping of the Python runtime. *)
Variable lower : string -> string.

Definition py_lower (v : pyval) : result string :=
  match v with
  | VStr s => Ok (lower s)
  | _ => Raise (AttributeError (type_name v) "lower")
  end.

(** The view function.  [Raise] is an exception that leaves the view; the
    exceptions of the prediction call are caught inside. *)
Definition predict (rnd : rng) (data : pyval) : result response :=
  if negb (truthy data) then Ok (JsonError "No data provided", 400) else
  missing <- first_missing required_fields data ;;
  match missing with
  | Some field => Ok (JsonError ("Missing field: " ++ field), 400)
  | None =>
      sport_value <- py_get data "sport" ;;
      sport <- py_lower sport_value ;;
      team_a <- py_get data "team_a" ;;
      team_b <- py_get data "team_b" ;;
      team_a_form <- py_get data "team_a_form" ;;
      team_b_form <- py_get data "team_b_form" ;;
      if negb (existsb (String.eqb sport) supported_sports) then
        Ok (JsonError ("Sport '" ++ sport ++ "' is not supported. Supported sports are: "
                         ++ repr_strs supported_sports), 400)
      else
        match predict_match_outcome rnd sport team_a team_b team_a_form team_b_form with
        | Ok prediction_result => Ok (JsonPrediction prediction_result, 200)
        | Raise e =>
            Ok (JsonErrorDetails "An error occurred during prediction." (exn_str e), 500)
        end
  end.

End Endpoint.

(** The landing page of [GET /]. *)
Definition index : string :=
  "<h1>Sports Prediction API</h1><p>Send a POST request to /predict to get a match outcome.</p>".

(** ASCII case mapping, [str.lower] on ASCII text. *)
Definition lower_ascii (c : ascii) : ascii :=
  let n := nat_of_ascii c in
  if ((65 <=? n) && (n <=? 90))%nat then ascii_of_nat (n + 32) else c.

Fixpoint ascii_lower (s : string) : string :=
  match s with
  | EmptyString => EmptyString
  | String c rest => String (lower_ascii c) (ascii_lower rest)
  end.

(** ** Forms used to state properties

    [draws_to_losses] rewrites every ['D'] entry of a form into ['L'];
    [chars] is [list(s)], the one-character strings of a string. *)
Definition draws_to_losses (l : list pyval) : list pyval :=
  map (fun x => if py_eq x (VStr "D") then VStr "L" else x) l.

Fixpoint chars (s : string) : list pyval :=
  match s with
  | EmptyString => []
  | String c rest => VStr (String c EmptyString) :: chars rest
  end.

(** ** Dyadic values

    The rest of the section serves the proofs only.  A finite float with
    mantissa [m] and exponent [e] has the real value [val m e]; [ge_val] and
    [le_val] bound a float of the specification from below and from above,
    [fge] and [fle] do the same for a primitive float. *)

Definition pw (e : Z) : R := powerRZ 2 e.
Definition val (m e : Z) : R := (IZR m * pw e)%R.

(** Mantissa and exponent of a float of the normal range. *)
Definition normal (m : positive) (e : Z) : Prop :=
  2 ^ 52 <= Z.pos m < 2 ^ 53 /\ -1074 <= e <= 971.

Definition ge_val (x : spec_float) (v : R) : Prop :=
  match x with
  | S754_infinity false => True
  | S754_finite false m e => (v <= val (Z.pos m) e)%R
  | _ => False
  end.

Definition le_val (x : spec_float) (v : R) : Prop :=
  match x with
  | S754_zero _ => True
  | S754_finite false m e => (val (Z.pos m) e <= v)%R /\ e <= 971
  | _ => False
  end.

Definition fge (x : float) (v : R) : Prop := ge_val (Prim2SF x) v.
Definition fle (x : float) (v : R) : Prop := le_val (Prim2SF x) v.

(** The last step of [binary_round_aux]: renormalise the rounded mantissa
    and detect overflow. *)
Definition finish (m2 e1 : Z) : spec_float :=
  let '(mrs, e2) := shr_fexp prec emax m2 e1 loc_Exact in
  match shr_m mrs with
  | Z0 => S754_zero false
  | Zpos p => if e2 <=? emax - prec then S754_finite false p e2 else S754_infinity false
  | Zneg _ => S754_nan
  end.

(** * Rounding of binary64 operations *)

(** ** Powers of two and dyadic values *)

Lemma pw_pos e : (0 < pw e)%R.
Proof. apply powerRZ_lt; lra. Qed.

Lemma pw_add a b : pw (a + b) = (pw a * pw b)%R.
Proof. apply powerRZ_add; lra. Qed.

Lemma pw_IZR n : 0 <= n -> pw n = IZR (2 ^ n).
Proof.
  intros Hn. unfold pw. destruct n as [|p|p]; try lia.
  - simpl. reflexivity.
  - change (2 ^ Z.pos p) with (Z.pow_pos 2 p). now rewrite Zpower_pos_powerRZ.
Qed.

Lemma pw_le a b : a <= b -> (pw a <= pw b)%R.
Proof.
  intros H. replace b with (a + (b - a)) by lia. rewrite pw_add, (pw_IZR (b - a)) by lia.
  assert (0 < 2 ^ (b - a)) by (apply Z.pow_pos_nonneg; lia).
  assert (H1 : 1 <= 2 ^ (b - a)) by lia.
  apply IZR_le in H1. pose proof (pw_pos a). nra.
Qed.

(** ** Right shifts

    [iter_pos shr_1 p] divides the mantissa by [2 ^ p]; the round and sticky
    bits stay clear when the division is exact. *)

Lemma mod_mul_zero a b c : 0 <= a -> 0 < b -> 0 < c ->
  a mod (b * c) = 0 -> a mod b = 0 /\ (a / b) mod c = 0.
Proof.
  intros Ha Hb Hc H. rewrite Z.rem_mul_r in H by lia.
  pose proof (Z.mod_pos_bound a b Hb). pose proof (Z.mod_pos_bound (a / b) c Hc).
  split; nia.
Qed.

Lemma pow2_xO p : 2 ^ Z.pos p~0 = 2 ^ Z.pos p * 2 ^ Z.pos p.
Proof. rewrite <- Z.pow_add_r by lia. f_equal. lia. Qed.

Lemma pow2_xI p : 2 ^ Z.pos p~1 = 2 * (2 ^ Z.pos p * 2 ^ Z.pos p).
Proof.
  rewrite <- Z.pow_add_r by lia. rewrite <- Z.pow_succ_r by lia. f_equal. lia.
Qed.

Lemma shr_1_spec m r s : 0 <= m ->
  shr_m (shr_1 (Build_shr_record m r s)) = m / 2 /\
  (m mod 2 = 0 -> r = false -> s = false ->
   shr_r (shr_1 (Build_shr_record m r s)) = false /\
   shr_s (shr_1 (Build_shr_record m r s)) = false).
Proof.
  intros Hm. destruct m as [|[p|p|]|]; try lia; cbn [shr_1 shr_m shr_r shr_s].
  - split. { reflexivity. }
    intros _ -> ->. split; reflexivity.
  - split. { rewrite (Pos2Z.inj_xI p). Z.div_mod_to_equations. lia. }
    intros Hodd. exfalso. rewrite (Pos2Z.inj_xI p) in Hodd. Z.div_mod_to_equations. lia.
  - split. { rewrite (Pos2Z.inj_xO p). Z.div_mod_to_equations. lia. }
    intros _ -> ->. split; reflexivity.
  - split. { reflexivity. }
    intros Hodd. exfalso. Z.div_mod_to_equations. lia.
Qed.

Lemma iter_shr_spec p : forall m r s, 0 <= m ->
  shr_m (iter_pos shr_1 p (Build_shr_record m r s)) = m / 2 ^ Z.pos p /\
  (m mod 2 ^ Z.pos p = 0 -> r = false -> s = false ->
   shr_r (iter_pos shr_1 p (Build_shr_record m r s)) = false /\
   shr_s (iter_pos shr_1 p (Build_shr_record m r s)) = false).
Proof.
  induction p as [p IH|p IH|]; intros m r s Hm.
  - assert (HP : 0 < 2 ^ Z.pos p) by (apply Z.pow_pos_nonneg; lia).
    rewrite pow2_xI. cbn [iter_pos].
    destruct (shr_1_spec m r s Hm) as [E1 X1].
    destruct (shr_1 (Build_shr_record m r s)) as [m1 r1 s1]. cbn [shr_m shr_r shr_s] in E1, X1.
    assert (Hm1 : 0 <= m1) by (subst m1; apply Z.div_pos; lia).
    destruct (IH m1 r1 s1 Hm1) as [E2 X2].
    destruct (iter_pos shr_1 p (Build_shr_record m1 r1 s1)) as [m2 r2 s2].
    cbn [shr_m shr_r shr_s] in E2, X2.
    assert (Hm2 : 0 <= m2) by (subst m2; apply Z.div_pos; lia).
    destruct (IH m2 r2 s2 Hm2) as [E3 X3].
    split.
    + rewrite E3, E2, E1, !Z.div_div by lia. reflexivity.
    + intros Hz -> ->.
      apply mod_mul_zero in Hz; try lia. destruct Hz as [Hz1 Hz2].
      apply mod_mul_zero in Hz2; try lia. destruct Hz2 as [Hz2 Hz3].
      destruct (X1 Hz1 eq_refl eq_refl) as [-> ->].
      rewrite <- E1 in Hz2, Hz3.
      destruct (X2 Hz2 eq_refl eq_refl) as [-> ->].
      rewrite <- E2 in Hz3. apply X3; auto.
  - assert (HP : 0 < 2 ^ Z.pos p) by (apply Z.pow_pos_nonneg; lia).
    rewrite pow2_xO. cbn [iter_pos].
    destruct (IH m r s Hm) as [E2 X2].
    destruct (iter_pos shr_1 p (Build_shr_record m r s)) as [m2 r2 s2].
    cbn [shr_m shr_r shr_s] in E2, X2.
    assert (Hm2 : 0 <= m2) by (subst m2; apply Z.div_pos; lia).
    destruct (IH m2 r2 s2 Hm2) as [E3 X3].
    split.
    + rewrite E3, E2, !Z.div_div by lia. reflexivity.
    + intros Hz -> ->.
      apply mod_mul_zero in Hz; try lia. destruct Hz as [Hz2 Hz3].
      destruct (X2 Hz2 eq_refl eq_refl) as [-> ->].
      rewrite <- E2 in Hz3. apply X3; auto.
  - cbn [iter_pos]. change (2 ^ 1) with 2. apply shr_1_spec; assumption.
Qed.

Lemma pw_lt_inv a b : (pw a < pw b)%R -> a < b.
Proof.
  intros H. destruct (Z_lt_le_dec a b) as [?|Hle]; [assumption|].
  apply pw_le in Hle. lra.
Qed.

Lemma val_mono a b e : a <= b -> (val a e <= val b e)%R.
Proof. intros H. unfold val. apply IZR_le in H. pose proof (pw_pos e). nra. Qed.

Lemma val_pow k e : 0 <= k -> val (2 ^ k) e = pw (k + e).
Proof. intros H. unfold val. rewrite pw_add, (pw_IZR k) by lia. reflexivity. Qed.

Lemma val_scale m k e : 0 <= k -> val (m * 2 ^ k) e = val m (e + k).
Proof.
  intros H. unfold val. rewrite mult_IZR, pw_add, (pw_IZR k) by lia. ring.
Qed.

Lemma val_lt_inv a b e : (val a e < val b e)%R -> a < b.
Proof.
  intros H. destruct (Z_lt_le_dec a b) as [?|Hle]; [assumption|].
  apply (val_mono _ _ e) in Hle. lra.
Qed.

Lemma val_le_inv a b e : (val a e <= val b e)%R -> a <= b.
Proof.
  intros H. destruct (Z_le_gt_dec a b) as [?|Hgt]; [assumption|].
  assert (Hs : b + 1 <= a) by lia. apply (val_mono _ _ e) in Hs.
  unfold val in *. rewrite plus_IZR in Hs. pose proof (pw_pos e). nra.
Qed.

(** ** Digits and exponents *)

Lemma fexp_eq e : fexp prec emax e = Z.max (e - 53) (-1074).
Proof. reflexivity. Qed.

Lemma digits2_pos_bounds p :
  2 ^ (Z.pos (digits2_pos p) - 1) <= Z.pos p < 2 ^ Z.pos (digits2_pos p).
Proof.
  induction p as [p IH|p IH|]; cbn [digits2_pos].
  - rewrite Pos2Z.inj_succ, (Pos2Z.inj_xI p).
    replace (Z.succ (Z.pos (digits2_pos p)) - 1) with (Z.succ (Z.pos (digits2_pos p) - 1)) by lia.
    rewrite !Z.pow_succ_r by lia.
    destruct IH as [IH1 IH2]; revert IH1 IH2.
    generalize (2 ^ (Z.pos (digits2_pos p) - 1)) (2 ^ Z.pos (digits2_pos p)). lia.
  - rewrite Pos2Z.inj_succ, (Pos2Z.inj_xO p).
    replace (Z.succ (Z.pos (digits2_pos p)) - 1) with (Z.succ (Z.pos (digits2_pos p) - 1)) by lia.
    rewrite !Z.pow_succ_r by lia.
    destruct IH as [IH1 IH2]; revert IH1 IH2.
    generalize (2 ^ (Z.pos (digits2_pos p) - 1)) (2 ^ Z.pos (digits2_pos p)). lia.
  - simpl. lia.
Qed.

Lemma Zdigits2_bounds m : 0 < m ->
  0 < Zdigits2 m /\ 2 ^ (Zdigits2 m - 1) <= m < 2 ^ Zdigits2 m.
Proof.
  intros Hm. destruct m as [|p|p]; try lia. cbn [Zdigits2].
  split; [lia | apply digits2_pos_bounds].
Qed.

Lemma Zdigits2_le m k : 0 < m -> m < 2 ^ k -> Zdigits2 m <= k.
Proof.
  intros Hm Hk. destruct (Zdigits2_bounds m Hm) as [Hd [Hlo _]].
  assert (0 <= k) by (destruct (Z_lt_le_dec k 0) as [Hneg|]; [rewrite Z.pow_neg_r in Hk by lia; lia | lia]).
  assert (2 ^ (Zdigits2 m - 1) < 2 ^ k) by lia.
  apply Z.pow_lt_mono_r_iff in H0; lia.
Qed.

Lemma val_digits m e : 0 < m ->
  (pw (Zdigits2 m - 1 + e) <= val m e < pw (Zdigits2 m + e))%R.
Proof.
  intros Hm. destruct (Zdigits2_bounds m Hm) as [Hd [Hlo Hhi]].
  rewrite <- !val_pow by lia. split.
  - apply val_mono; assumption.
  - unfold val. apply IZR_lt in Hhi. pose proof (pw_pos e). nra.
Qed.

Lemma shr_fexp_spec m e : 0 <= m ->
  exists r s,
    shr_fexp prec emax m e loc_Exact =
      (Build_shr_record (m / 2 ^ (Z.max e (fexp prec emax (Zdigits2 m + e)) - e)) r s,
       Z.max e (fexp prec emax (Zdigits2 m + e)))
    /\ (m mod 2 ^ (Z.max e (fexp prec emax (Zdigits2 m + e)) - e) = 0 -> r = false /\ s = false).
Proof.
  intros Hm. unfold shr_fexp, shr, shr_record_of_loc.
  set (fe := fexp prec emax (Zdigits2 m + e)).
  destruct (fe - e) as [|p|p] eqn:E.
  - exists false, false. replace (Z.max e fe) with e by lia.
    rewrite Z.sub_diag, Z.pow_0_r, Z.div_1_r. auto.
  - destruct (iter_shr_spec p m false false Hm) as [E1 X1].
    destruct (iter_pos shr_1 p (Build_shr_record m false false)) as [m1 r1 s1].
    cbn [shr_m shr_r shr_s] in E1, X1.
    exists r1, s1. replace (Z.max e fe) with (e + Z.pos p) by lia.
    replace (e + Z.pos p - e) with (Z.pos p) by lia. subst m1. auto.
  - exists false, false. replace (Z.max e fe) with e by lia.
    rewrite Z.sub_diag, Z.pow_0_r, Z.div_1_r. auto.
Qed.

Lemma round_nearest_even_bounds m r s :
  m <= round_nearest_even m (loc_of_shr_record (Build_shr_record m r s)) <= m + 1 /\
  (r = false /\ s = false ->
   round_nearest_even m (loc_of_shr_record (Build_shr_record m r s)) = m).
Proof.
  destruct r, s; cbn [loc_of_shr_record round_nearest_even];
    try destruct (Z.even m); split; try lia; intros [? ?]; congruence.
Qed.

(** ** Rounding to nearest

    [binary_round_aux] truncates the mantissa at the exponent [fexp] gives,
    moves up by at most one unit, and renormalises. *)

Lemma round_aux_cases m e : 0 < m ->
  exists m2,
    m / 2 ^ (Z.max e (fexp prec emax (Zdigits2 m + e)) - e) <= m2
      <= m / 2 ^ (Z.max e (fexp prec emax (Zdigits2 m + e)) - e) + 1 /\
    (m mod 2 ^ (Z.max e (fexp prec emax (Zdigits2 m + e)) - e) = 0 ->
     m2 = m / 2 ^ (Z.max e (fexp prec emax (Zdigits2 m + e)) - e)) /\
    binary_round_aux prec emax false m e loc_Exact =
      finish m2 (Z.max e (fexp prec emax (Zdigits2 m + e))).
Proof.
  intros Hm. destruct (shr_fexp_spec m e) as (r & s & E & X); [lia|].
  set (e1 := Z.max e (fexp prec emax (Zdigits2 m + e))) in *.
  set (m1 := m / 2 ^ (e1 - e)) in *.
  destruct (round_nearest_even_bounds m1 r s) as [B1 B2].
  exists (round_nearest_even m1 (loc_of_shr_record (Build_shr_record m1 r s))).
  split; [exact B1|]. split; [intros Hz; apply B2, X, Hz|].
  unfold binary_round_aux, finish. rewrite E. cbn [shr_m]. reflexivity.
Qed.

Lemma finish_spec m2 e1 : -1074 <= e1 -> 0 <= m2 <= 2 ^ 53 ->
  (m2 = 0 /\ finish m2 e1 = S754_zero false) \/
  (exists p e2,
     0 < m2 /\ val (Z.pos p) e2 = val m2 e1 /\ e1 <= e2 <= e1 + 1 /\
     (m2 < 2 ^ 53 -> e2 = e1) /\
     finish m2 e1 = if e2 <=? 971 then S754_finite false p e2 else S754_infinity false).
Proof.
  intros He1 Hm2. unfold finish.
  destruct (shr_fexp_spec m2 e1) as (r & s & E & _); [lia|]. rewrite E. cbn [shr_m].
  change (emax - prec) with 971. rewrite fexp_eq.
  destruct (Z.eq_dec m2 0) as [->|Hnz].
  - left. split; [reflexivity|]. cbn [Zdigits2].
    replace (Z.max e1 (Z.max (0 + e1 - 53) (-1074)) - e1) with 0 by lia. reflexivity.
  - right. destruct (Z.eq_dec m2 (2 ^ 53)) as [->|Hlt].
    + exists (2 ^ 52)%positive, (e1 + 1).
      change (Zdigits2 (2 ^ 53)) with 54.
      replace (Z.max e1 (Z.max (54 + e1 - 53) (-1074))) with (e1 + 1) by lia.
      replace (e1 + 1 - e1) with 1 by lia.
      change (2 ^ 53 / 2 ^ 1) with (Z.pos (2 ^ 52)).
      repeat split; try lia.
      change (Z.pos (2 ^ 52)) with (2 ^ 52). change (2 ^ 53) with (2 ^ 52 * 2 ^ 1).
      rewrite val_scale by lia. reflexivity.
    + assert (Hd : Zdigits2 m2 <= 53) by (apply Zdigits2_le; lia).
      replace (Z.max e1 (Z.max (Zdigits2 m2 + e1 - 53) (-1074))) with e1 by lia.
      rewrite Z.sub_diag, Z.pow_0_r, Z.div_1_r.
      destruct m2 as [|p|p]; try lia.
      exists p, e1. repeat split; lia.
Qed.

Lemma normal_bounds m e : normal m e ->
  (pw (52 + e) <= val (Z.pos m) e < pw (53 + e))%R.
Proof.
  intros [[Hlo Hhi] _]. rewrite <- !val_pow by lia. split.
  - apply val_mono; assumption.
  - unfold val. apply IZR_lt in Hhi. pose proof (pw_pos e). nra.
Qed.

Lemma pow2_split a b : 0 <= a -> 0 <= b -> 2 ^ (a + b) = 2 ^ a * 2 ^ b.
Proof. intros. apply Z.pow_add_r; assumption. Qed.

(** Rounding does not cross a float of the normal range: a value at
    least such a float rounds to at least that float. *)
Lemma round_aux_ge mL eL m e :
  normal mL eL -> 0 < m -> (val (Z.pos mL) eL <= val m e)%R ->
  ge_val (binary_round_aux prec emax false m e loc_Exact) (val (Z.pos mL) eL).
Proof.
  intros HL Hm HV.
  destruct (round_aux_cases m e Hm) as (m2 & B & _ & ->).
  rewrite fexp_eq in *.
  pose proof (val_digits m e Hm) as [Dlo Dhi].
  pose proof (normal_bounds _ _ HL) as [Llo Lhi].
  destruct (Zdigits2_bounds m Hm) as [Hd [Zlo Zhi]].
  assert (Hde : 52 + eL < Zdigits2 m + e) by (apply pw_lt_inv; lra).
  destruct HL as [[HmL1 HmL2] [HeL1 HeL2]].
  set (d := Zdigits2 m) in *.
  set (e1 := Z.max e (Z.max (d + e - 53) (-1074))) in *.
  set (m1 := m / 2 ^ (e1 - e)) in *.
  assert (A : 0 < m1 < 2 ^ 53 /\ (val (Z.pos mL) eL <= val m1 e1)%R).
  { destruct (Z_le_gt_dec d 53) as [Hsmall|Hbig].
    - assert (He1 : e1 = e) by (unfold e1; lia).
      assert (Hm1 : m1 = m) by (unfold m1; rewrite He1, Z.sub_diag, Z.pow_0_r, Z.div_1_r; reflexivity).
      rewrite Hm1, He1. split; [|assumption].
      split; [lia|]. apply Z.lt_le_trans with (2 ^ d); [assumption|].
      apply Z.pow_le_mono_r; lia.
    - assert (He1 : e1 = d + e - 53) by (unfold e1; lia).
      assert (Hn : e1 - e = d - 53) by lia.
      assert (HP : 0 < 2 ^ (d - 53)) by (apply Z.pow_pos_nonneg; lia).
      assert (Hlo1 : 2 ^ 52 <= m1).
      { unfold m1. rewrite Hn. apply Z.div_le_lower_bound; [assumption|].
        rewrite <- pow2_split by lia. replace (d - 53 + 52) with (d - 1) by lia. assumption. }
      assert (Hhi1 : m1 < 2 ^ 53).
      { unfold m1. rewrite Hn. apply Z.div_lt_upper_bound; [assumption|].
        rewrite <- pow2_split by lia. replace (d - 53 + 53) with d by lia. assumption. }
      split; [lia|].
      destruct (Z_lt_le_dec eL e1) as [Hgt|Hle].
      + apply Rle_trans with (pw (53 + eL)); [lra|].
        apply Rle_trans with (pw (52 + e1)); [apply pw_le; lia|].
        rewrite <- val_pow by lia. apply val_mono; assumption.
      + assert (HeL : eL = e1) by lia. rewrite HeL in *.
        apply val_mono. unfold m1. rewrite Hn. apply Z.div_le_lower_bound; [assumption|].
        apply (val_le_inv _ _ e). rewrite Z.mul_comm, val_scale by lia.
        replace (e + (d - 53)) with e1 by lia. assumption. }
  destruct A as [[Hm1a Hm1b] HLm1].
  destruct (finish_spec m2 e1) as [[Hz _]|(p & e2 & Hpos & Hval & _ & _ & ->)];
    [unfold e1; lia | lia | lia |].
  assert (Hv2 : (val m1 e1 <= val m2 e1)%R) by (apply val_mono; lia).
  destruct (e2 <=? 971); cbn [ge_val]; [rewrite Hval; lra | exact I].
Qed.

(** The same from above. *)
Lemma round_aux_le mU eU m e :
  normal mU eU -> 0 < m -> e <= 971 -> (val m e <= val (Z.pos mU) eU)%R ->
  le_val (binary_round_aux prec emax false m e loc_Exact) (val (Z.pos mU) eU).
Proof.
  intros HU Hm He HV.
  destruct (round_aux_cases m e Hm) as (m2 & B & X & ->).
  rewrite fexp_eq in *.
  pose proof (val_digits m e Hm) as [Dlo Dhi].
  pose proof (normal_bounds _ _ HU) as [Ulo Uhi].
  destruct (Zdigits2_bounds m Hm) as [Hd [Zlo Zhi]].
  destruct HU as [[HmU1 HmU2] [HeU1 HeU2]].
  set (d := Zdigits2 m) in *.
  set (e1 := Z.max e (Z.max (d + e - 53) (-1074))) in *.
  set (m1 := m / 2 ^ (e1 - e)) in *.
  assert (Hm1 : 0 <= m1) by (apply Z.div_pos; [lia | apply Z.pow_pos_nonneg; unfold e1; lia]).
  assert (A : m2 <= 2 ^ 53 /\ (val m2 e1 <= val (Z.pos mU) eU)%R /\
              e1 <= 971 /\ (m2 = 2 ^ 53 -> e1 + 1 <= 971)).
  { destruct (Z_le_gt_dec e1 e) as [Hsame|Hshift].
    - assert (He1 : e1 = e) by (unfold e1 in *; lia).
      assert (E0 : e1 - e = 0) by lia.
      assert (Hm1e : m1 = m) by (unfold m1; rewrite E0, Z.pow_0_r, Z.div_1_r; reflexivity).
      assert (Hm2 : m2 = m).
      { rewrite <- Hm1e. apply X. rewrite E0, Z.pow_0_r. apply Z.mod_1_r. }
      assert (Hlt : m < 2 ^ 53).
      { apply Z.lt_le_trans with (2 ^ d); [assumption|].
        apply Z.pow_le_mono_r; unfold e1 in *; lia. }
      rewrite Hm2, He1. repeat split; try lia. assumption.
    - destruct (Z_le_gt_dec (-1074) (d + e - 53)) as [Hnorm|Hsub].
      + assert (He1 : e1 = d + e - 53) by (unfold e1 in *; lia).
        assert (Hn : e1 - e = d - 53) by lia.
        assert (HP : 0 < 2 ^ (d - 53)) by (apply Z.pow_pos_nonneg; lia).
        assert (Hhi1 : m1 < 2 ^ 53).
        { unfold m1. rewrite Hn. apply Z.div_lt_upper_bound; [assumption|].
          rewrite <- pow2_split by lia. replace (d - 53 + 53) with d by lia. assumption. }
        assert (Hee : e1 <= eU).
        { assert (52 + e1 < 53 + eU); [|lia]. apply pw_lt_inv.
          replace (52 + e1) with (d - 1 + e) by lia. lra. }
        destruct (Z_lt_le_dec e1 eU) as [Hlt|Hge].
        * repeat split; try lia.
          apply Rle_trans with (val (2 ^ 53) e1); [apply val_mono; lia|].
          rewrite val_pow by lia.
          apply Rle_trans with (pw (52 + eU)); [apply pw_le; lia | lra].
        * assert (HeU : eU = e1) by lia. rewrite HeU in *.
          assert (HmmU : m <= Z.pos mU * 2 ^ (d - 53)).
          { apply (val_le_inv _ _ e). rewrite val_scale by lia.
            replace (e + (d - 53)) with e1 by lia. assumption. }
          assert (Hm1U : m1 <= Z.pos mU).
          { unfold m1. rewrite Hn. apply Z.div_le_upper_bound; lia. }
          assert (Hm2U : m2 <= Z.pos mU).
          { destruct (Z.eq_dec m1 (Z.pos mU)) as [Heq|Hne]; [|lia].
            rewrite X; [lia|]. rewrite Hn.
            pose proof (Z.div_mod m (2 ^ (d - 53)) ltac:(lia)) as DM.
            pose proof (Z.mod_pos_bound m (2 ^ (d - 53)) HP) as MB.
            unfold m1 in Heq. rewrite Hn in Heq. rewrite Heq in DM. lia. }
          repeat split; try lia. apply val_mono; assumption.
      + assert (He1 : e1 = -1074) by (unfold e1 in *; lia).
        assert (Hn : 0 < e1 - e) by lia.
        assert (HP : 0 < 2 ^ (e1 - e)) by (apply Z.pow_pos_nonneg; lia).
        assert (Hhi1 : m1 < 2 ^ 52).
        { unfold m1. apply Z.div_lt_upper_bound; [assumption|].
          rewrite <- pow2_split by lia. apply Z.lt_le_trans with (2 ^ d); [assumption|].
          apply Z.pow_le_mono_r; lia. }
        repeat split; try lia.
        apply Rle_trans with (val (2 ^ 52) e1); [apply val_mono; lia|].
        rewrite val_pow by lia.
        apply Rle_trans with (pw (52 + eU)); [apply pw_le; lia | lra]. }
  destruct A as (Hm2a & Hm2v & He1a & He1b).
  destruct (finish_spec m2 e1) as [[_ ->]|(p & e2 & Hpos & Hval & He2 & He2' & ->)];
    [unfold e1; lia | lia | exact I |].
  assert (He2le : e2 <= 971).
  { destruct (Z.eq_dec m2 (2 ^ 53)); [lia|]. rewrite He2'; lia. }
  replace (e2 <=? 971) with true by (symmetry; apply Z.leb_le; assumption).
  cbn [le_val]. rewrite Hval. split; assumption.
Qed.

(** ** Bounds through the operations *)

Lemma pos_iter_xO m d : Z.pos (Pos.iter xO m d) = Z.pos m * 2 ^ Z.pos d.
Proof.
  induction d as [|d IH] using Pos.peano_ind.
  - cbn [Pos.iter]. rewrite (Pos2Z.inj_xO m). change (2 ^ 1) with 2. lia.
  - rewrite Pos.iter_succ, (Pos2Z.inj_xO (Pos.iter xO m d)), IH, Pos2Z.inj_succ.
    rewrite Z.pow_succ_r by lia. lia.
Qed.

Lemma shl_align_spec mx ex ex' :
  val (Z.pos (fst (shl_align mx ex ex'))) (snd (shl_align mx ex ex')) = val (Z.pos mx) ex /\
  snd (shl_align mx ex ex') <= ex /\
  (ex' <= ex -> snd (shl_align mx ex ex') = ex').
Proof.
  unfold shl_align. destruct (ex' - ex) as [|d|d] eqn:E; cbn [fst snd].
  - repeat split; lia.
  - repeat split; lia.
  - repeat split; try lia. rewrite pos_iter_xO, val_scale by lia. f_equal. lia.
Qed.

Lemma binary_round_ge mL eL mx ex :
  normal mL eL -> (val (Z.pos mL) eL <= val (Z.pos mx) ex)%R ->
  ge_val (binary_round prec emax false mx ex) (val (Z.pos mL) eL).
Proof.
  intros HL HV. unfold binary_round.
  destruct (shl_align_spec mx ex (fexp prec emax (Z.pos (digits2_pos mx) + ex))) as (Hv & _ & _).
  destruct (shl_align mx ex _) as [mz ez]. cbn [fst snd] in Hv.
  apply round_aux_ge; [assumption | lia | rewrite Hv; assumption].
Qed.

Lemma binary_round_le mU eU mx ex :
  normal mU eU -> ex <= 971 -> (val (Z.pos mx) ex <= val (Z.pos mU) eU)%R ->
  le_val (binary_round prec emax false mx ex) (val (Z.pos mU) eU).
Proof.
  intros HU He HV. unfold binary_round.
  destruct (shl_align_spec mx ex (fexp prec emax (Z.pos (digits2_pos mx) + ex))) as (Hv & Hle & _).
  destruct (shl_align mx ex _) as [mz ez]. cbn [fst snd] in Hv, Hle.
  apply round_aux_le; [assumption | lia | lia | rewrite Hv; assumption].
Qed.

Lemma val_mul m1 e1 m2 e2 : val (m1 * m2) (e1 + e2) = (val m1 e1 * val m2 e2)%R.
Proof. unfold val. rewrite mult_IZR, pw_add. ring. Qed.

Lemma val_pos m e : (0 < val (Z.pos m) e)%R.
Proof.
  unfold val. pose proof (pw_pos e). assert (0 < IZR (Z.pos m))%R by (apply IZR_lt; lia). nra.
Qed.

Lemma SFmul_comm x y : SFmul prec emax x y = SFmul prec emax y x.
Proof.
  destruct x as [sx|sx| |sx mx ex], y as [sy|sy| |sy my ey]; cbn [SFmul];
    rewrite ?(xorb_comm sx sy), ?(Pos.mul_comm mx my), ?(Z.add_comm ex ey); reflexivity.
Qed.

Lemma SFmul_ge x a mc ec mL eL :
  ge_val x a -> normal mL eL -> (val (Z.pos mL) eL <= a * val (Z.pos mc) ec)%R ->
  ge_val (SFmul prec emax x (S754_finite false mc ec)) (val (Z.pos mL) eL).
Proof.
  intros Hx HL HV. destruct x as [sx|[|]| |[|] mx ex]; cbn [ge_val] in Hx; try contradiction.
  - exact I.
  - cbn [SFmul xorb]. apply round_aux_ge; [assumption | lia |].
    rewrite Pos2Z.inj_mul, val_mul. pose proof (val_pos mc ec). nra.
Qed.

Lemma SFmul_le x a mc ec mU eU :
  le_val x a -> normal mU eU -> ec <= 0 -> (a * val (Z.pos mc) ec <= val (Z.pos mU) eU)%R ->
  le_val (SFmul prec emax x (S754_finite false mc ec)) (val (Z.pos mU) eU).
Proof.
  intros Hx HU Hec HV. destruct x as [sx|sx| |[|] mx ex]; cbn [le_val] in Hx; try contradiction.
  - exact I.
  - destruct Hx as [Hx He]. cbn [SFmul xorb]. apply round_aux_le; [assumption | lia | lia |].
    rewrite Pos2Z.inj_mul, val_mul. pose proof (val_pos mc ec). nra.
Qed.

Lemma SFadd_fin mc ec my ey :
  exists s, SFadd prec emax (S754_finite false mc ec) (S754_finite false my ey) =
              binary_round prec emax false s (Z.min ec ey) /\
            val (Z.pos s) (Z.min ec ey) = (val (Z.pos mc) ec + val (Z.pos my) ey)%R.
Proof.
  cbn [SFadd cond_Zopp].
  destruct (shl_align_spec mc ec (Z.min ec ey)) as (V1 & _ & S1).
  destruct (shl_align_spec my ey (Z.min ec ey)) as (V2 & _ & S2).
  rewrite S1 in V1 by lia. rewrite S2 in V2 by lia.
  exists (fst (shl_align mc ec (Z.min ec ey)) + fst (shl_align my ey (Z.min ec ey)))%positive.
  split; [reflexivity|].
  rewrite <- V1, <- V2, Pos2Z.inj_add. unfold val. rewrite plus_IZR. ring.
Qed.

Lemma SFadd_ge y b mc ec mL eL :
  ge_val y b -> normal mL eL -> (val (Z.pos mL) eL <= val (Z.pos mc) ec + b)%R ->
  ge_val (SFadd prec emax (S754_finite false mc ec) y) (val (Z.pos mL) eL).
Proof.
  intros Hy HL HV. destruct y as [sy|[|]| |[|] my ey]; cbn [ge_val] in Hy; try contradiction.
  - exact I.
  - destruct (SFadd_fin mc ec my ey) as (s & -> & Hs).
    apply binary_round_ge; [assumption | rewrite Hs; lra].
Qed.

Lemma SFadd_le y b mc ec mU eU :
  le_val y b -> (0 <= b)%R -> normal mU eU -> ec <= 971 ->
  (val (Z.pos mc) ec + b <= val (Z.pos mU) eU)%R ->
  le_val (SFadd prec emax (S754_finite false mc ec) y) (val (Z.pos mU) eU).
Proof.
  intros Hy Hb HU Hec HV. destruct y as [sy|sy| |[|] my ey]; cbn [le_val] in Hy; try contradiction.
  - cbn [SFadd le_val]. split; [lra | assumption].
  - destruct Hy as [Hy He]. destruct (SFadd_fin mc ec my ey) as (s & -> & Hs).
    apply binary_round_le; [assumption | lia | rewrite Hs; lra].
Qed.

Lemma SFadd_ge_left y b mc ec :
  le_val y b -> normal mc ec ->
  ge_val (SFadd prec emax (S754_finite false mc ec) y) (val (Z.pos mc) ec).
Proof.
  intros Hy HC. destruct y as [sy|sy| |[|] my ey]; cbn [le_val] in Hy; try contradiction.
  - cbn [SFadd ge_val]. lra.
  - destruct (SFadd_fin mc ec my ey) as (s & -> & Hs).
    apply binary_round_ge; [assumption | rewrite Hs]. pose proof (val_pos my ey). lra.
Qed.

Lemma normalize_ge n mL eL :
  normal mL eL -> (val (Z.pos mL) eL <= IZR n)%R ->
  ge_val (binary_normalize prec emax n 0 false) (val (Z.pos mL) eL).
Proof.
  intros HL HV. pose proof (val_pos mL eL) as HP.
  destruct n as [|p|p].
  - lra.
  - cbn [binary_normalize]. apply binary_round_ge; [assumption|].
    unfold val at 2. change (pw 0) with 1%R. lra.
  - assert (IZR (Z.neg p) < 0)%R by (apply IZR_lt; lia). lra.
Qed.

Lemma normalize_le n mU eU :
  normal mU eU -> 0 <= n -> (IZR n <= val (Z.pos mU) eU)%R ->
  le_val (binary_normalize prec emax n 0 false) (val (Z.pos mU) eU).
Proof.
  intros HU Hn HV. destruct n as [|p|p]; try lia.
  - exact I.
  - cbn [binary_normalize]. apply binary_round_le; [assumption | lia |].
    unfold val at 1. change (pw 0) with 1%R. lra.
Qed.

(** ** Comparisons of valid floats follow the values *)

Lemma valid_finite_bounds s m e :
  valid_binary (S754_finite s m e) = true ->
  -1074 <= e <= 971 /\ Z.pos m < 2 ^ 53 /\ (-1074 < e -> 2 ^ 52 <= Z.pos m).
Proof.
  cbn [SpecFloat.valid_binary]. unfold bounded, canonical_mantissa.
  rewrite andb_true_iff, Z.eqb_eq, Z.leb_le, fexp_eq. change (emax - prec) with 971.
  intros [Hc He].
  destruct (Zdigits2_bounds (Z.pos m) ltac:(lia)) as [Hd [Hlo Hhi]]. cbn [Zdigits2] in *.
  set (d := Z.pos (digits2_pos m)) in *.
  split; [lia|]. split.
  - apply Z.lt_le_trans with (2 ^ d); [assumption | apply Z.pow_le_mono_r; lia].
  - intros Hn. replace 52 with (d - 1) by lia. assumption.
Qed.

Lemma SFcompare_le m1 e1 m2 e2 :
  valid_binary (S754_finite false m1 e1) = true ->
  valid_binary (S754_finite false m2 e2) = true ->
  (val (Z.pos m1) e1 <= val (Z.pos m2) e2)%R ->
  SFleb (S754_finite false m1 e1) (S754_finite false m2 e2) = true.
Proof.
  intros V1 V2 H. apply valid_finite_bounds in V1, V2.
  destruct V1 as (He1 & Hm1 & Hn1), V2 as (He2 & Hm2 & Hn2).
  unfold SFleb. cbn [SFcompare].
  destruct (Z.compare_spec e1 e2) as [Heq|Hlt|Hgt]; [|reflexivity|exfalso].
  - subst e2. apply val_le_inv in H. rewrite Pos.compare_cont_spec. cbn [Pos.switch_Eq].
    destruct (Pos.compare_spec m1 m2); try reflexivity; lia.
  - assert (A : (pw (52 + e1) <= val (Z.pos m1) e1)%R)
      by (rewrite <- val_pow by lia; apply val_mono, Hn1; lia).
    assert (B : (val (Z.pos m2) e2 < pw (53 + e2))%R).
    { rewrite <- val_pow by lia. unfold val. apply IZR_lt in Hm2. pose proof (pw_pos e2). nra. }
    assert (C : (pw (53 + e2) <= pw (52 + e1))%R) by (apply pw_le; lia).
    lra.
Qed.

Lemma SFcompare_lt m1 e1 m2 e2 :
  valid_binary (S754_finite false m1 e1) = true ->
  valid_binary (S754_finite false m2 e2) = true ->
  (val (Z.pos m1) e1 < val (Z.pos m2) e2)%R ->
  SFltb (S754_finite false m1 e1) (S754_finite false m2 e2) = true.
Proof.
  intros V1 V2 H. apply valid_finite_bounds in V1, V2.
  destruct V1 as (He1 & Hm1 & Hn1), V2 as (He2 & Hm2 & Hn2).
  unfold SFltb. cbn [SFcompare].
  destruct (Z.compare_spec e1 e2) as [Heq|Hlt|Hgt]; [|reflexivity|exfalso].
  - subst e2. apply val_lt_inv in H. rewrite Pos.compare_cont_spec. cbn [Pos.switch_Eq].
    destruct (Pos.compare_spec m1 m2); try reflexivity; lia.
  - assert (A : (pw (52 + e1) <= val (Z.pos m1) e1)%R)
      by (rewrite <- val_pow by lia; apply val_mono, Hn1; lia).
    assert (B : (val (Z.pos m2) e2 < pw (53 + e2))%R).
    { rewrite <- val_pow by lia. unfold val. apply IZR_lt in Hm2. pose proof (pw_pos e2). nra. }
    assert (C : (pw (53 + e2) <= pw (52 + e1))%R) by (apply pw_le; lia).
    lra.
Qed.

Lemma leb_of_le x v mU eU :
  valid_binary x = true -> le_val x v ->
  valid_binary (S754_finite false mU eU) = true -> (v <= val (Z.pos mU) eU)%R ->
  SFleb x (S754_finite false mU eU) = true.
Proof.
  intros Vx Hx VU HV. destruct x as [sx|sx| |[|] mx ex]; cbn [le_val] in Hx; try contradiction.
  - reflexivity.
  - apply SFcompare_le; try assumption. lra.
Qed.

Lemma leb_of_ge x v mL eL :
  valid_binary x = true -> ge_val x v ->
  valid_binary (S754_finite false mL eL) = true -> (val (Z.pos mL) eL <= v)%R ->
  SFleb (S754_finite false mL eL) x = true.
Proof.
  intros Vx Hx VL HV. destruct x as [sx|[|]| |[|] mx ex]; cbn [ge_val] in Hx; try contradiction.
  - reflexivity.
  - apply SFcompare_le; try assumption. lra.
Qed.

Lemma ltb_of_ge x v mL eL :
  valid_binary x = true -> ge_val x v ->
  valid_binary (S754_finite false mL eL) = true -> (val (Z.pos mL) eL < v)%R ->
  SFltb (S754_finite false mL eL) x = true.
Proof.
  intros Vx Hx VL HV. destruct x as [sx|[|]| |[|] mx ex]; cbn [ge_val] in Hx; try contradiction.
  - reflexivity.
  - apply SFcompare_lt; try assumption. lra.
Qed.

(** ** Arithmetic on concrete dyadic values *)

Lemma pw_neg p : pw (Z.neg p) = (/ IZR (2 ^ Z.pos p))%R.
Proof.
  assert (H : (pw (Z.neg p) * pw (Z.pos p) = 1)%R).
  { rewrite <- pw_add. replace (Z.neg p + Z.pos p) with 0 by lia. reflexivity. }
  rewrite (pw_IZR (Z.pos p)) in H by lia.
  assert (0 < IZR (2 ^ Z.pos p))%R by (apply IZR_lt, Z.pow_pos_nonneg; lia).
  apply Rmult_eq_reg_r with (IZR (2 ^ Z.pos p)); [|lra].
  rewrite H. field. lra.
Qed.

Ltac val_arith :=
  unfold val; rewrite ?pw_neg;
  repeat match goal with
         | |- context [IZR (2 ^ Z.pos ?p)] =>
             let c := eval vm_compute in (2 ^ Z.pos p) in change (2 ^ Z.pos p) with c
         end;
  change (pw 0) with 1%R; lra.

(** ** Bounds on primitive floats *)

Lemma mul_fge x c a mc ec mL eL :
  Prim2SF c = S754_finite false mc ec -> fge x a -> normal mL eL ->
  (val (Z.pos mL) eL <= a * val (Z.pos mc) ec)%R ->
  fge (x * c) (val (Z.pos mL) eL).
Proof.
  intros Hc Hx HL HV. unfold fge. rewrite FloatAxioms.mul_spec, Hc. unfold SF64mul.
  apply SFmul_ge with a; assumption.
Qed.

Lemma mul_fle x c a mc ec mU eU :
  Prim2SF c = S754_finite false mc ec -> fle x a -> normal mU eU -> ec <= 0 ->
  (a * val (Z.pos mc) ec <= val (Z.pos mU) eU)%R ->
  fle (x * c) (val (Z.pos mU) eU).
Proof.
  intros Hc Hx HU He HV. unfold fle. rewrite FloatAxioms.mul_spec, Hc. unfold SF64mul.
  apply SFmul_le with a; assumption.
Qed.

Lemma mul_fle_l c x a mc ec mU eU :
  Prim2SF c = S754_finite false mc ec -> fle x a -> normal mU eU -> ec <= 0 ->
  (a * val (Z.pos mc) ec <= val (Z.pos mU) eU)%R ->
  fle (c * x) (val (Z.pos mU) eU).
Proof.
  intros Hc Hx HU He HV. unfold fle. rewrite FloatAxioms.mul_spec, Hc. unfold SF64mul.
  rewrite SFmul_comm. apply SFmul_le with a; assumption.
Qed.

Lemma add_fge c y b mc ec mL eL :
  Prim2SF c = S754_finite false mc ec -> fge y b -> normal mL eL ->
  (val (Z.pos mL) eL <= val (Z.pos mc) ec + b)%R ->
  fge (c + y) (val (Z.pos mL) eL).
Proof.
  intros Hc Hy HL HV. unfold fge. rewrite FloatAxioms.add_spec, Hc. unfold SF64add.
  apply SFadd_ge with b; assumption.
Qed.

Lemma add_fle c y b mc ec mU eU :
  Prim2SF c = S754_finite false mc ec -> fle y b -> (0 <= b)%R -> normal mU eU ->
  (val (Z.pos mc) ec + b <= val (Z.pos mU) eU)%R ->
  fle (c + y) (val (Z.pos mU) eU).
Proof.
  intros Hc Hy Hb HU HV. unfold fle. rewrite FloatAxioms.add_spec, Hc. unfold SF64add.
  pose proof (FloatAxioms.Prim2SF_valid c) as Vc. rewrite Hc in Vc.
  apply valid_finite_bounds in Vc.
  apply SFadd_le with b; try assumption. lia.
Qed.

Lemma add_fge_left c y b mc ec :
  Prim2SF c = S754_finite false mc ec -> fle y b -> normal mc ec ->
  fge (c + y) (val (Z.pos mc) ec).
Proof.
  intros Hc Hy HC. unfold fge. rewrite FloatAxioms.add_spec, Hc. unfold SF64add.
  apply SFadd_ge_left with b; assumption.
Qed.

Lemma of_uint63_fge i mL eL :
  normal mL eL -> (val (Z.pos mL) eL <= IZR (Uint63.to_Z i))%R ->
  fge (of_uint63 i) (val (Z.pos mL) eL).
Proof. intros HL HV. unfold fge. rewrite FloatAxioms.of_uint63_spec. apply normalize_ge; assumption. Qed.

Lemma of_uint63_fle i mU eU :
  normal mU eU -> (IZR (Uint63.to_Z i) <= val (Z.pos mU) eU)%R ->
  fle (of_uint63 i) (val (Z.pos mU) eU).
Proof.
  intros HU HV. unfold fle. rewrite FloatAxioms.of_uint63_spec. apply normalize_le; try assumption.
  apply Uint63.to_Z_bounded.
Qed.

Lemma valid_const c mc ec :
  Prim2SF c = S754_finite false mc ec -> valid_binary (S754_finite false mc ec) = true.
Proof. intros <-. apply FloatAxioms.Prim2SF_valid. Qed.

Lemma ltb_fge c x v mc ec :
  Prim2SF c = S754_finite false mc ec -> fge x v -> (val (Z.pos mc) ec < v)%R ->
  (c <? x)%float = true.
Proof.
  intros Hc Hx HV. rewrite FloatAxioms.ltb_spec, Hc.
  apply ltb_of_ge with v; [apply FloatAxioms.Prim2SF_valid | exact Hx | apply (valid_const c), Hc | exact HV].
Qed.

Lemma leb_fge c x v mc ec :
  Prim2SF c = S754_finite false mc ec -> fge x v -> (val (Z.pos mc) ec <= v)%R ->
  (c <=? x)%float = true.
Proof.
  intros Hc Hx HV. rewrite FloatAxioms.leb_spec, Hc.
  apply leb_of_ge with v; [apply FloatAxioms.Prim2SF_valid | exact Hx | apply (valid_const c), Hc | exact HV].
Qed.

Lemma leb_fle c x v mc ec :
  Prim2SF c = S754_finite false mc ec -> fle x v -> (v <= val (Z.pos mc) ec)%R ->
  (x <=? c)%float = true.
Proof.
  intros Hc Hx HV. rewrite FloatAxioms.leb_spec, Hc.
  apply leb_of_le with v; [apply FloatAxioms.Prim2SF_valid | exact Hx | apply (valid_const c), Hc | exact HV].
Qed.

(** ** The float constants of the program, as mantissa and exponent *)

Lemma SF_005 : Prim2SF 0.05 = S754_finite false 7205759403792794 (-57).
Proof. vm_compute. reflexivity. Qed.

Lemma SF_05 : Prim2SF 0.5 = S754_finite false 4503599627370496 (-53).
Proof. vm_compute. reflexivity. Qed.

Lemma SF_095 : Prim2SF 0.95 = S754_finite false 8556839292003942 (-53).
Proof. vm_compute. reflexivity. Qed.

Lemma SF_03 : Prim2SF 0.3 = S754_finite false 5404319552844595 (-54).
Proof. vm_compute. reflexivity. Qed.

Lemma SF_02 : Prim2SF (0.5 - 0.3) = S754_finite false 7205759403792794 (-55).
Proof. vm_compute. reflexivity. Qed.

Lemma SF_2m53 : Prim2SF 0x1p-53 = S754_finite false 4503599627370496 (-105).
Proof. vm_compute. reflexivity. Qed.

Lemma to_Z_of_Z n : 0 <= n < 2 ^ 63 -> Uint63.to_Z (Uint63.of_Z n) = n.
Proof. intros H. rewrite Uint63.of_Z_spec. apply Z.mod_small. exact H. Qed.

(** ** The confidence of a decided match *)

(** From ten wins of difference on, [0.5 + d * 0.05] exceeds the cap. *)
Lemma saturates i : 10 <= Uint63.to_Z i ->
  (0.95 <? 0.5 + of_uint63 i * 0.05)%float = true.
Proof.
  intros Hi.
  assert (H1 : fge (of_uint63 i) (val 5629499534213120 (-49))).
  { apply of_uint63_fge; [unfold normal; lia|].
    apply IZR_le in Hi. revert Hi. generalize (IZR (Uint63.to_Z i)). intros r Hr. val_arith. }
  assert (H2 : fge (of_uint63 i * 0.05) (val 4503599627370496 (-53))).
  { eapply mul_fge; [exact SF_005 | exact H1 | unfold normal; lia | val_arith]. }
  assert (H3 : fge (0.5 + of_uint63 i * 0.05) (val 4503599627370496 (-52))).
  { eapply add_fge; [exact SF_05 | exact H2 | unfold normal; lia | val_arith]. }
  eapply ltb_fge; [exact SF_095 | exact H3 | val_arith].
Qed.

Lemma confidence_capped d : 10 <= Uint63.to_Z (Uint63.of_Z d) -> confidence d = 0.95%float.
Proof.
  intros H. unfold confidence, float_of_int, py_min. rewrite (saturates _ H).
  vm_compute. reflexivity.
Qed.

Ltac case_at n k tac := destruct (Z.eq_dec n k) as [->|?]; [tac|].

(** Runs [tac] with [n] replaced by each of [0 .. 9]. *)
Ltac small_cases n tac :=
  case_at n 0 tac; case_at n 1 tac; case_at n 2 tac; case_at n 3 tac; case_at n 4 tac;
  case_at n 5 tac; case_at n 6 tac; case_at n 7 tac; case_at n 8 tac; case_at n 9 tac;
  exfalso; lia.

Lemma confidence_small d : 0 <= d <= 9 -> confidence d = nearest_float (50 + 5 * d) 100.
Proof. intros H. small_cases d ltac:(vm_compute; reflexivity). Qed.

(** The confidence of a win by [d] more wins is the decimal [0.50 + 0.05 d],
    capped at [0.95], read as a float. *)
Lemma confidence_value d : 0 <= d < 2 ^ 63 ->
  confidence d = nearest_float (50 + 5 * Z.min d 9) 100.
Proof.
  intros H. destruct (Z_le_gt_dec d 9) as [Hs|Hb].
  - rewrite Z.min_l by lia. apply confidence_small. lia.
  - rewrite Z.min_r by lia. rewrite confidence_capped by (rewrite to_Z_of_Z; lia).
    vm_compute. reflexivity.
Qed.

Lemma confidence_unfold d :
  confidence d =
  match Uint63.to_Z (Uint63.of_Z d) with
  | 0 => 0.5 | 1 => 0.55 | 2 => 0.6 | 3 => 0.65 | 4 => 0.7
  | 5 => 0.75 | 6 => 0.8 | 7 => 0.85 | 8 => 0.9 | _ => 0.95
  end%float.
Proof.
  pose proof (Uint63.to_Z_bounded (Uint63.of_Z d)) as B.
  destruct (Z_le_gt_dec 10 (Uint63.to_Z (Uint63.of_Z d))) as [Hb|Hs].
  - rewrite confidence_capped by assumption.
    destruct (Uint63.to_Z (Uint63.of_Z d)) as [|p|p]; try lia.
    destruct p as [[[[p|p|]|[p|p|]|]|[[p|p|]|[p|p|]|]|]|[[[p|p|]|[p|p|]|]|[[p|p|]|[p|p|]|]|]|];
      try reflexivity; lia.
  - unfold confidence, float_of_int. rewrite <- (Uint63.of_to_Z (Uint63.of_Z d)).
    rewrite !(to_Z_of_Z (Uint63.to_Z (Uint63.of_Z d))) by (change (2 ^ 63) with wB; lia).
    revert B Hs. generalize (Uint63.to_Z (Uint63.of_Z d)). intros n B Hs.
    small_cases n ltac:(vm_compute; reflexivity).
Qed.

Lemma confidence_range d :
  (0.5 <=? confidence d)%float = true /\ (confidence d <=? 0.95)%float = true.
Proof.
  rewrite confidence_unfold.
  destruct (Uint63.to_Z (Uint63.of_Z d)) as [|p|p]; [split; reflexivity| |split; reflexivity].
  destruct p as [[[[p|p|]|[p|p|]|]|[[p|p|]|[p|p|]|]|]|[[[p|p|]|[p|p|]|]|[[p|p|]|[p|p|]|]|]|];
    split; reflexivity.
Qed.

Lemma confidence_two_decimals d : py_round (confidence d) 2 = confidence d.
Proof.
  rewrite confidence_unfold.
  destruct (Uint63.to_Z (Uint63.of_Z d)) as [|p|p];
    [vm_compute; reflexivity| |vm_compute; reflexivity].
  destruct p as [[[[p|p|]|[p|p|]|]|[[p|p|]|[p|p|]|]|]|[[[p|p|]|[p|p|]|]|[[p|p|]|[p|p|]|]|]|];
    vm_compute; reflexivity.
Qed.

Lemma tie_confidence : py_round (py_min 0.5 0.95) 2 = 0.5%float.
Proof. vm_compute. reflexivity. Qed.

(** ** The draw confidence *)

Lemma random_fle rnd : fle (random rnd) (val 9007199254740991 (-53)).
Proof.
  unfold random.
  assert (B : 0 <= frac rnd mod 2 ^ 53 < 2 ^ 53) by (apply Z.mod_pos_bound; lia).
  revert B. generalize (frac rnd mod 2 ^ 53). intros k B.
  assert (H1 : fle (of_uint63 (Uint63.of_Z k)) (val 9007199254740991 0)).
  { apply of_uint63_fle; [unfold normal; lia|]. rewrite to_Z_of_Z by lia.
    assert (Hk : k <= 9007199254740991) by lia.
    apply IZR_le in Hk. revert Hk. generalize (IZR k). intros r Hr.
    val_arith. }
  eapply mul_fle; [exact SF_2m53 | exact H1 | unfold normal; lia | lia | val_arith].
Qed.

(** [random.uniform(0.3, 0.5)] stays within the closed interval. *)
Lemma uniform_range rnd :
  (0.3 <=? uniform rnd 0.3 0.5)%float = true /\ (uniform rnd 0.3 0.5 <=? 0.5)%float = true.
Proof.
  unfold uniform.
  assert (H2 : fle ((0.5 - 0.3) * random rnd) (val 7205759403792794 (-55))).
  { eapply mul_fle_l;
      [exact SF_02 | exact (random_fle rnd) | unfold normal; lia | lia | val_arith]. }
  split.
  - eapply leb_fge; [exact SF_03 | | apply Rle_refl].
    eapply add_fge_left; [exact SF_03 | exact H2 | unfold normal; lia].
  - eapply leb_fle; [exact SF_05 | | apply Rle_refl].
    eapply add_fle; [exact SF_03 | exact H2 | | unfold normal; lia | val_arith].
    apply Rlt_le, val_pos.
Qed.

(** * The prediction model *)

Lemma gtb_true a b : b < a -> (a >? b) = true.
Proof. intros H. destruct (Z.gtb_spec a b); [reflexivity | lia]. Qed.

Lemma gtb_false a b : a <= b -> (a >? b) = false.
Proof. intros H. destruct (Z.gtb_spec a b); [lia | reflexivity]. Qed.

(** The three branches of [predict_match_outcome], once both counts exist. *)
Lemma predict_team_a rnd sport team_a team_b fa fb wa wb :
  py_count fa = Ok wa -> py_count fb = Ok wb -> wb < wa ->
  predict_match_outcome rnd sport team_a team_b fa fb =
  Ok (Win team_a team_b (confidence (wa - wb))).
Proof.
  intros Ha Hb H. unfold predict_match_outcome. rewrite Ha, Hb. cbn [bind].
  rewrite gtb_true by assumption. reflexivity.
Qed.

Lemma predict_team_b rnd sport team_a team_b fa fb wa wb :
  py_count fa = Ok wa -> py_count fb = Ok wb -> wa < wb ->
  predict_match_outcome rnd sport team_a team_b fa fb =
  Ok (Win team_b team_a (confidence (wb - wa))).
Proof.
  intros Ha Hb H. unfold predict_match_outcome. rewrite Ha, Hb. cbn [bind].
  rewrite gtb_false, gtb_true by lia. reflexivity.
Qed.

Lemma predict_tie rnd sport team_a team_b fa fb w :
  py_count fa = Ok w -> py_count fb = Ok w ->
  predict_match_outcome rnd sport team_a team_b fa fb =
  if String.eqb sport "football" then
    if py_eq (choice rnd [team_a; team_b; VStr "Draw"] VNone) (VStr "Draw") then
      Ok (Draw (uniform rnd 0.3 0.5))
    else
      Ok (Win (choice rnd [team_a; team_b; VStr "Draw"] VNone)
            (if py_eq (choice rnd [team_a; team_b; VStr "Draw"] VNone) team_a
             then team_b else team_a) 0.5)
  else
    Ok (Win (choice rnd [team_a; team_b] VNone)
          (if py_eq (choice rnd [team_a; team_b] VNone) team_a then team_b else team_a) 0.5).
Proof.
  intros Ha Hb. unfold predict_match_outcome. rewrite Ha, Hb. cbn [bind].
  rewrite !gtb_false by lia. unfold win_record. rewrite tie_confidence. reflexivity.
Qed.

Lemma py_eq_str a b : py_eq (VStr a) (VStr b) = String.eqb a b.
Proof. reflexivity. Qed.

Lemma py_eq_Draw x : py_eq x (VStr "Draw") = true <-> x = VStr "Draw".
Proof.
  split.
  - destruct x; cbn [py_eq]; try discriminate. intros H. apply String.eqb_eq in H. now subst.
  - intros ->. reflexivity.
Qed.

Lemma choice3 {A : Type} rnd (x y z d : A) :
  choice rnd [x; y; z] d =
  match (pick rnd mod 3)%nat with 0%nat => x | 1%nat => y | _ => z end.
Proof.
  unfold choice. cbn [List.length].
  pose proof (Nat.mod_upper_bound (pick rnd) 3 ltac:(lia)) as B.
  destruct (pick rnd mod 3)%nat as [|[|[|n]]]; try reflexivity. lia.
Qed.

Lemma choice2 {A : Type} rnd (x y d : A) :
  choice rnd [x; y] d = match (pick rnd mod 2)%nat with 0%nat => x | _ => y end.
Proof.
  unfold choice. cbn [List.length].
  pose proof (Nat.mod_upper_bound (pick rnd) 2 ltac:(lia)) as B.
  destruct (pick rnd mod 2)%nat as [|[|n]]; try reflexivity. lia.
Qed.

(** ** Claims about [predict_match_outcome] *)

(** C1: when team A has strictly more ['W'] entries, the result is a win
    record for team A over team B whose confidence is
    [round(min(0.5 + (wa - wb) * 0.05, 0.95), 2)], a value of [[0.5, 0.95]]. *)
Theorem more_wins_team_a rnd sport team_a team_b team_a_form team_b_form wa wb :
  py_count team_a_form = Ok wa -> py_count team_b_form = Ok wb -> wb < wa ->
  let c := py_round (py_min (0.5 + float_of_int (wa - wb) * 0.05) 0.95) 2 in
  predict_match_outcome rnd sport team_a team_b team_a_form team_b_form
    = Ok (Win team_a team_b c)
  /\ (0.5 <=? c)%float = true /\ (c <=? 0.95)%float = true.
Proof.
  intros Ha Hb H c. split.
  - apply predict_team_a; assumption.
  - apply (confidence_range (wa - wb)).
Qed.

Lemma more_wins_team_a_witness :
  predict_match_outcome {| pick := 0; frac := 0 |} "basketball" (VStr "Lions") (VStr "Tigers")
    (VList [VStr "W"; VStr "W"; VStr "L"]) (VList [VStr "W"; VStr "L"; VStr "L"])
    = Ok (Win (VStr "Lions") (VStr "Tigers") 0.55)
  /\ (0.5 <=? 0.55)%float = true /\ (0.55 <=? 0.95)%float = true.
Proof.
  exact (more_wins_team_a {| pick := 0; frac := 0 |} "basketball" (VStr "Lions") (VStr "Tigers")
           (VList [VStr "W"; VStr "W"; VStr "L"]) (VList [VStr "W"; VStr "L"; VStr "L"]) 2 1
           eq_refl eq_refl eq_refl).
Defined.

(** C7: the mirror image of C1.  When team B has strictly more ['W']
    entries the result is a win record for team B over team A with the same
    confidence formula, and it is the record the call with the two teams and
    their forms exchanged returns. *)
Theorem more_wins_team_b rnd rnd' sport team_a team_b team_a_form team_b_form wa wb :
  py_count team_a_form = Ok wa -> py_count team_b_form = Ok wb -> wa < wb ->
  let c := py_round (py_min (0.5 + float_of_int (wb - wa) * 0.05) 0.95) 2 in
  predict_match_outcome rnd sport team_a team_b team_a_form team_b_form
    = Ok (Win team_b team_a c)
  /\ predict_match_outcome rnd' sport team_b team_a team_b_form team_a_form
    = Ok (Win team_b team_a c)
  /\ (0.5 <=? c)%float = true /\ (c <=? 0.95)%float = true.
Proof.
  intros Ha Hb H c. split; [|split].
  - apply predict_team_b; assumption.
  - apply predict_team_a; assumption.
  - apply (confidence_range (wb - wa)).
Qed.

Lemma more_wins_team_b_witness :
  predict_match_outcome {| pick := 0; frac := 0 |} "rugby" (VStr "Lions") (VStr "Tigers")
    (VList [VStr "L"]) (VList [VStr "W"; VStr "W"; VStr "W"])
    = Ok (Win (VStr "Tigers") (VStr "Lions") 0.65)
  /\ predict_match_outcome {| pick := 1; frac := 7 |} "rugby" (VStr "Tigers") (VStr "Lions")
    (VList [VStr "W"; VStr "W"; VStr "W"]) (VList [VStr "L"])
    = Ok (Win (VStr "Tigers") (VStr "Lions") 0.65)
  /\ (0.5 <=? 0.65)%float = true /\ (0.65 <=? 0.95)%float = true.
Proof.
  exact (more_wins_team_b {| pick := 0; frac := 0 |} {| pick := 1; frac := 7 |} "rugby"
           (VStr "Lions") (VStr "Tigers") (VList [VStr "L"])
           (VList [VStr "W"; VStr "W"; VStr "W"]) 0 3 eq_refl eq_refl eq_refl).
Defined.

(** C2, at the input where it fails: on a football tie where the draw is
    picked and [random()] returns [1/8], the record carries the confidence
    [0.3 + 0.2 / 8], which [round(_, 2)] would change. *)
Theorem draw_confidence_not_rounded :
  predict_match_outcome {| pick := 2; frac := 2 ^ 50 |} "football"
    (VStr "Lions") (VStr "Tigers") (VList []) (VList [])
    = Ok (Draw 0.325)
  /\ py_round 0.325 2 = 0.33%float
  /\ (0.325 =? 0.33)%float = false.
Proof. repeat split; vm_compute; reflexivity. Qed.

(** C3, refuted as stated: a team named ['Draw'] that the tie-break picks
    yields a draw record, and a draw confidence can be [0.5] itself. *)
Lemma football_tie_break_counterexample :
  predict_match_outcome {| pick := 0; frac := 0 |} "football"
    (VStr "Draw") (VStr "Tigers") (VList []) (VList [])
    = Ok (Draw 0.3)
  /\ predict_match_outcome {| pick := 2; frac := 2 ^ 53 - 1 |} "football"
       (VStr "Lions") (VStr "Tigers") (VList []) (VList [])
     = Ok (Draw 0.5)
  /\ (0.5 <? 0.5)%float = false.
Proof. repeat split; vm_compute; reflexivity. Qed.

Lemma football_tie_cases rnd (team_a team_b : string) team_a_form team_b_form w :
  py_count team_a_form = Ok w -> py_count team_b_form = Ok w ->
  team_a <> "Draw" -> team_b <> "Draw" ->
  predict_match_outcome rnd "football" (VStr team_a) (VStr team_b) team_a_form team_b_form
  = Ok (match (pick rnd mod 3)%nat with
        | 0%nat => Win (VStr team_a) (VStr team_b) 0.5
        | 1%nat => Win (VStr team_b) (VStr team_a) 0.5
        | _ => Draw (uniform rnd 0.3 0.5)
        end).
Proof.
  intros Ha Hb Na Nb.
  rewrite (predict_tie _ _ _ _ _ _ _ Ha Hb). cbn [String.eqb Ascii.eqb Bool.eqb andb].
  rewrite choice3.
  apply String.eqb_neq in Na, Nb.
  destruct (pick rnd mod 3)%nat as [|[|n]].
  - rewrite !py_eq_str, Na, String.eqb_refl. reflexivity.
  - rewrite !py_eq_str, Nb.
    destruct (String.eqb_spec team_b team_a) as [->|_]; reflexivity.
  - reflexivity.
Qed.

(** C3, amended: on a football tie between teams not named ['Draw'], the
    first two choices give a win record for the chosen team over the other
    with confidence [0.5], and the third gives a draw record whose
    confidence lies in the closed interval [[0.3, 0.5]]. *)
Theorem football_tie_break rnd (team_a team_b : string) team_a_form team_b_form w :
  py_count team_a_form = Ok w -> py_count team_b_form = Ok w ->
  team_a <> "Draw" -> team_b <> "Draw" ->
  match (pick rnd mod 3)%nat with
  | 0%nat =>
      predict_match_outcome rnd "football" (VStr team_a) (VStr team_b) team_a_form team_b_form
      = Ok (Win (VStr team_a) (VStr team_b) 0.5)
  | 1%nat =>
      predict_match_outcome rnd "football" (VStr team_a) (VStr team_b) team_a_form team_b_form
      = Ok (Win (VStr team_b) (VStr team_a) 0.5)
  | _ =>
      predict_match_outcome rnd "football" (VStr team_a) (VStr team_b) team_a_form team_b_form
      = Ok (Draw (uniform rnd 0.3 0.5))
      /\ (0.3 <=? uniform rnd 0.3 0.5)%float = true
      /\ (uniform rnd 0.3 0.5 <=? 0.5)%float = true
  end.
Proof.
  intros Ha Hb Na Nb.
  rewrite (football_tie_cases rnd _ _ _ _ _ Ha Hb Na Nb).
  destruct (pick rnd mod 3)%nat as [|[|n]]; try reflexivity.
  split; [reflexivity | apply uniform_range].
Qed.

Lemma football_tie_break_witness :
  predict_match_outcome {| pick := 4; frac := 0 |} "football" (VStr "Lions") (VStr "Tigers")
    (VList [VStr "W"; VStr "D"]) (VList [VStr "L"; VStr "W"])
  = Ok (Win (VStr "Tigers") (VStr "Lions") 0.5).
Proof.
  apply (football_tie_break {| pick := 4; frac := 0 |} "Lions" "Tigers"
           (VList [VStr "W"; VStr "D"]) (VList [VStr "L"; VStr "W"]) 1 eq_refl eq_refl);
    intros H; discriminate H.
Defined.

(** C4: on a tie in basketball or rugby the result is a win record with
    confidence [0.5], for one of the two teams over the other. *)
Theorem no_draw_outside_football rnd sport (team_a team_b : string) team_a_form team_b_form w :
  sport = "basketball" \/ sport = "rugby" ->
  py_count team_a_form = Ok w -> py_count team_b_form = Ok w ->
  predict_match_outcome rnd sport (VStr team_a) (VStr team_b) team_a_form team_b_form
  = Ok (match (pick rnd mod 2)%nat with
        | 0%nat => Win (VStr team_a) (VStr team_b) 0.5
        | _ => Win (VStr team_b) (VStr team_a) 0.5
        end).
Proof.
  intros Hs Ha Hb. rewrite (predict_tie _ _ _ _ _ _ _ Ha Hb).
  replace (String.eqb sport "football") with false
    by (destruct Hs as [-> | ->]; reflexivity).
  rewrite choice2. destruct (pick rnd mod 2)%nat as [|n].
  - rewrite py_eq_str, String.eqb_refl. reflexivity.
  - rewrite py_eq_str. destruct (String.eqb_spec team_b team_a) as [->|_]; reflexivity.
Qed.

Lemma no_draw_outside_football_witness :
  predict_match_outcome {| pick := 3; frac := 5 |} "rugby" (VStr "Lions") (VStr "Tigers")
    (VList [VStr "W"]) (VList [VStr "W"])
  = Ok (Win (VStr "Tigers") (VStr "Lions") 0.5).
Proof.
  exact (no_draw_outside_football {| pick := 3; frac := 5 |} "rugby" "Lions" "Tigers"
           (VList [VStr "W"]) (VList [VStr "W"]) 1 (or_intror eq_refl) eq_refl eq_refl).
Defined.

(** C8: the forms matter through their ['W'] counts only. *)
Theorem forms_matter_by_count rnd sport team_a team_b fa fb fa' fb' :
  py_count fa = py_count fa' -> py_count fb = py_count fb' ->
  predict_match_outcome rnd sport team_a team_b fa fb
  = predict_match_outcome rnd sport team_a team_b fa' fb'.
Proof. intros Ha Hb. unfold predict_match_outcome. rewrite Ha, Hb. reflexivity. Qed.

Lemma forms_matter_by_count_witness :
  predict_match_outcome {| pick := 2; frac := 9 |} "football" (VStr "Lions") (VStr "Tigers")
    (VList [VStr "W"; VStr "D"; VStr "L"]) (VList [VStr "D"; VStr "W"])
  = predict_match_outcome {| pick := 2; frac := 9 |} "football" (VStr "Lions") (VStr "Tigers")
      (VList [VStr "L"; VStr "W"; VStr "L"]) (VList [VStr "W"; VStr "L"]).
Proof.
  exact (forms_matter_by_count {| pick := 2; frac := 9 |} "football" (VStr "Lions")
           (VStr "Tigers") (VList [VStr "W"; VStr "D"; VStr "L"]) (VList [VStr "D"; VStr "W"])
           (VList [VStr "L"; VStr "W"; VStr "L"]) (VList [VStr "W"; VStr "L"])
           eq_refl eq_refl).
Defined.

(** C9: with different ['W'] counts the result does not depend on the
    random source. *)
Theorem decided_without_randomness rnd rnd' sport team_a team_b fa fb wa wb :
  py_count fa = Ok wa -> py_count fb = Ok wb -> wa <> wb ->
  predict_match_outcome rnd sport team_a team_b fa fb
  = predict_match_outcome rnd' sport team_a team_b fa fb.
Proof.
  intros Ha Hb H. destruct (Z_lt_le_dec wb wa) as [Hgt|Hle].
  - rewrite !(predict_team_a _ _ _ _ _ _ _ _ Ha Hb Hgt). reflexivity.
  - assert (Hlt : wa < wb) by lia.
    rewrite !(predict_team_b _ _ _ _ _ _ _ _ Ha Hb Hlt). reflexivity.
Qed.

Lemma decided_without_randomness_witness :
  predict_match_outcome {| pick := 0; frac := 0 |} "football" (VStr "Lions") (VStr "Tigers")
    (VList [VStr "W"]) (VList [])
  = predict_match_outcome {| pick := 2; frac := 12345 |} "football" (VStr "Lions")
      (VStr "Tigers") (VList [VStr "W"]) (VList []).
Proof.
  apply (decided_without_randomness {| pick := 0; frac := 0 |} {| pick := 2; frac := 12345 |}
           "football" (VStr "Lions") (VStr "Tigers") (VList [VStr "W"]) (VList []) 1 0
           eq_refl eq_refl).
  intros H; discriminate H.
Defined.

(** C10: on a football tie no win record names ['Draw'] as the winner; a
    team of that name picked by the tie-break gives the draw record. *)
Theorem football_tie_never_Draw_winner rnd team_a team_b team_a_form team_b_form w :
  py_count team_a_form = Ok w -> py_count team_b_form = Ok w ->
  (forall loser c,
     predict_match_outcome rnd "football" team_a team_b team_a_form team_b_form
     <> Ok (Win (VStr "Draw") loser c))
  /\ (choice rnd [team_a; team_b; VStr "Draw"] VNone = VStr "Draw" ->
      predict_match_outcome rnd "football" team_a team_b team_a_form team_b_form
      = Ok (Draw (uniform rnd 0.3 0.5))).
Proof.
  intros Ha Hb. rewrite (predict_tie _ _ _ _ _ _ _ Ha Hb).
  cbn [String.eqb Ascii.eqb Bool.eqb andb].
  destruct (py_eq (choice rnd [team_a; team_b; VStr "Draw"] VNone) (VStr "Draw")) eqn:E.
  - split; [intros loser c H; discriminate H | reflexivity].
  - split.
    + intros loser c H. injection H as H _ _.
      apply py_eq_Draw in H. congruence.
    + intros H. apply py_eq_Draw in H. congruence.
Qed.

Lemma football_tie_never_Draw_winner_witness :
  predict_match_outcome {| pick := 1; frac := 2 ^ 52 |} "football" (VStr "Lions")
    (VStr "Draw") (VList [VStr "W"]) (VList [VStr "W"])
  = Ok (Draw 0.4).
Proof.
  exact (proj2 (football_tie_never_Draw_winner {| pick := 1; frac := 2 ^ 52 |} (VStr "Lions")
                  (VStr "Draw") (VList [VStr "W"]) (VList [VStr "W"]) 1 eq_refl eq_refl)
               eq_refl).
Defined.

(** * The endpoint *)

Lemma has_key_In key d : has_key key d = true <-> In key (map fst d).
Proof.
  unfold has_key. rewrite existsb_exists, in_map_iff. split.
  - intros [kv [Hin E]]. apply String.eqb_eq in E. exists kv. auto.
  - intros [kv [E Hin]]. exists kv. split; [assumption|]. now apply String.eqb_eq.
Qed.

Lemma has_key_lookup key d : has_key key d = true <-> exists v, lookup key d = Some v.
Proof.
  induction d as [|[k v] d IH]; cbn [has_key existsb lookup fst].
  - split; [discriminate | intros [v H]; discriminate H].
  - destruct (String.eqb k key); cbn [orb].
    + split; [intros _; eauto | reflexivity].
    + exact IH.
Qed.

(** On a dict the loop returns the first required field that is no key. *)
Lemma first_missing_dict fields d :
  first_missing fields (VDict d) = Ok (find (fun f => negb (has_key f d)) fields).
Proof.
  induction fields as [|f fields IH]; cbn [first_missing py_contains bind find].
  - reflexivity.
  - destruct (has_key f d); cbn [negb]; [exact IH | reflexivity].
Qed.

Lemma find_first_absent d pre field post :
  (forall f, In f pre -> In f (map fst d)) -> ~ In field (map fst d) ->
  find (fun f => negb (has_key f d)) (pre ++ field :: post)%list = Some field.
Proof.
  intros Hpre Habs. induction pre as [|f pre IH]; cbn [app find].
  - destruct (has_key field d) eqn:E; [apply has_key_In in E; contradiction | reflexivity].
  - replace (has_key f d) with true
      by (symmetry; apply has_key_In, Hpre; left; reflexivity).
    cbn [negb]. apply IH. intros g Hg. apply Hpre. right. exact Hg.
Qed.

Lemma find_all_present d fields :
  (forall f, In f fields -> In f (map fst d)) ->
  find (fun f => negb (has_key f d)) fields = None.
Proof.
  intros H. induction fields as [|f fields IH]; cbn [find]; [reflexivity|].
  replace (has_key f d) with true by (symmetry; apply has_key_In, H; left; reflexivity).
  cbn [negb]. apply IH. intros g Hg. apply H. right. exact Hg.
Qed.

(** C5, refuted as stated: the empty object lacks every required field, and
    the answer is the no-data error, not the missing-field error. *)
Lemma missing_field_counterexample :
  predict ascii_lower {| pick := 0; frac := 0 |} (VDict [])
    = Ok (JsonError "No data provided", 400)
  /\ JsonError "No data provided" <> JsonError "Missing field: sport".
Proof. split; [reflexivity | intros H; discriminate H]. Qed.

(** C5, amended: an object that lacks a required field is answered with
    status 400 and an error naming the first such field, unless the object
    is empty; the empty object and a missing body are answered with status
    400 and the error ['No data provided']. *)
Theorem missing_field_rejected lower rnd d pre field post :
  required_fields = (pre ++ field :: post)%list ->
  (forall f, In f pre -> In f (map fst d)) -> ~ In field (map fst d) ->
  predict lower rnd (VDict d)
    = Ok (JsonError (match d with
                     | [] => "No data provided"
                     | _ :: _ => "Missing field: " ++ field
                     end), 400)
  /\ predict lower rnd VNone = Ok (JsonError "No data provided", 400).
Proof.
  intros Hreq Hpre Habs. split; [|reflexivity].
  destruct d as [|kv d]; [reflexivity|].
  unfold predict. cbn [truthy negb]. rewrite first_missing_dict, Hreq.
  rewrite (find_first_absent _ _ _ _ Hpre Habs). reflexivity.
Qed.

Lemma missing_field_rejected_witness :
  predict ascii_lower {| pick := 0; frac := 0 |}
    (VDict [("sport", VStr "rugby"); ("team_a", VStr "Lions")])
    = Ok (JsonError "Missing field: team_b", 400)
  /\ predict ascii_lower {| pick := 0; frac := 0 |} VNone
     = Ok (JsonError "No data provided", 400).
Proof.
  apply (missing_field_rejected ascii_lower {| pick := 0; frac := 0 |}
           [("sport", VStr "rugby"); ("team_a", VStr "Lions")]
           ["sport"; "team_a"] "team_b" ["team_a_form"; "team_b_form"] eq_refl).
  - intros f Hf. simpl in *. tauto.
  - simpl. intros [H|[H|[]]]; discriminate H.
Defined.

(** C6: in a request that has the five fields and a string for [sport],
    a sport whose lower-case form is not supported is answered with status
    400 and a message that names it and lists the supported sports; a sport
    whose lower-case form is supported reaches [predict_match_outcome] under
    that lower-case form. *)
Theorem sport_validation lower rnd d s :
  (forall f, In f required_fields -> In f (map fst d)) ->
  lookup "sport" d = Some (VStr s) ->
  (~ In (lower s) supported_sports ->
   predict lower rnd (VDict d)
   = Ok (JsonError ("Sport '" ++ lower s ++
           "' is not supported. Supported sports are: ['football', 'basketball', 'rugby']"),
         400))
  /\ (In (lower s) supported_sports ->
      predict lower rnd (VDict d)
      = Ok (match predict_match_outcome rnd (lower s) (dict_get d "team_a")
                    (dict_get d "team_b") (dict_get d "team_a_form")
                    (dict_get d "team_b_form") with
            | Ok prediction_result => (JsonPrediction prediction_result, 200)
            | Raise e =>
                (JsonErrorDetails "An error occurred during prediction." (exn_str e), 500)
            end)).
Proof.
  intros Hall Hsport.
  assert (Hpre : predict lower rnd (VDict d) =
    if negb (existsb (String.eqb (lower s)) supported_sports) then
      Ok (JsonError ("Sport '" ++ lower s ++ "' is not supported. Supported sports are: "
                       ++ repr_strs supported_sports), 400)
    else
      match predict_match_outcome rnd (lower s) (dict_get d "team_a")
              (dict_get d "team_b") (dict_get d "team_a_form")
              (dict_get d "team_b_form") with
      | Ok prediction_result => Ok (JsonPrediction prediction_result, 200)
      | Raise e =>
          Ok (JsonErrorDetails "An error occurred during prediction." (exn_str e), 500)
      end).
  { unfold predict.
    destruct d as [|kv d]; [exfalso; apply (Hall "sport"); left; reflexivity|].
    cbn [truthy negb]. rewrite first_missing_dict, (find_all_present _ _ Hall).
    cbn [bind py_get]. unfold dict_get at 1. rewrite Hsport. cbn [py_lower bind].
    reflexivity. }
  rewrite Hpre. split; intros H.
  - replace (existsb (String.eqb (lower s)) supported_sports) with false; [reflexivity|].
    symmetry. apply not_true_is_false. intros E. apply H.
    apply existsb_exists in E. destruct E as [x [Hin E]].
    apply String.eqb_eq in E. subst x. exact Hin.
  - replace (existsb (String.eqb (lower s)) supported_sports) with true.
    + cbn [negb]. destruct (predict_match_outcome _ _ _ _ _ _); reflexivity.
    + symmetry. apply existsb_exists. exists (lower s). split; [exact H | apply String.eqb_refl].
Qed.

Lemma sport_validation_witness :
  predict ascii_lower {| pick := 0; frac := 0 |}
    (VDict [("sport", VStr "Football"); ("team_a", VStr "Lions"); ("team_b", VStr "Tigers");
            ("team_a_form", VList [VStr "W"; VStr "W"]); ("team_b_form", VList [VStr "L"])])
  = Ok (JsonPrediction (Win (VStr "Lions") (VStr "Tigers") 0.6), 200).
Proof.
  refine (proj2 (sport_validation ascii_lower {| pick := 0; frac := 0 |}
            [("sport", VStr "Football"); ("team_a", VStr "Lions"); ("team_b", VStr "Tigers");
             ("team_a_form", VList [VStr "W"; VStr "W"]); ("team_b_form", VList [VStr "L"])]
            "Football" _ eq_refl) _).
  - intros f Hf. simpl in *. tauto.
  - simpl. tauto.
Defined.

(** * Further properties of [predict_match_outcome] *)

Lemma raises_iff rnd sport team_a team_b team_a_form team_b_form e :
  predict_match_outcome rnd sport team_a team_b team_a_form team_b_form = Raise e <->
  py_count team_a_form = Raise e \/
  (exists wa, py_count team_a_form = Ok wa) /\ py_count team_b_form = Raise e.
Proof.
  unfold predict_match_outcome.
  destruct (py_count team_a_form) as [wa|ea]; cbn [bind].
  - destruct (py_count team_b_form) as [wb|eb]; cbn [bind].
    + split.
      * intros H. exfalso.
        destruct (wa >? wb); [discriminate H|].
        destruct (wb >? wa); [discriminate H|].
        destruct (String.eqb sport "football"); [|discriminate H].
        destruct (py_eq _ _); discriminate H.
      * intros [H|[_ H]]; discriminate H.
    + split.
      * intros H. right. split; [eauto | injection H as ->; reflexivity].
      * intros [H|[_ H]]; [discriminate H | injection H as ->; reflexivity].
  - split.
    + intros H. left. injection H as ->; reflexivity.
    + intros [H|[[wa H] _]]; [injection H as ->; reflexivity | discriminate H].
Qed.


(** Forms that are lists or strings always give a record. *)
Theorem predict_match_outcome_returns rnd sport team_a team_b team_a_form team_b_form :
  (exists l, team_a_form = VList l) \/ (exists s, team_a_form = VStr s) ->
  (exists l, team_b_form = VList l) \/ (exists s, team_b_form = VStr s) ->
  exists p, predict_match_outcome rnd sport team_a team_b team_a_form team_b_form = Ok p.
Proof.
  intros Ha Hb.
  destruct (predict_match_outcome rnd sport team_a team_b team_a_form team_b_form)
    as [p|e] eqn:E; [eauto|].
  exfalso. apply raises_iff in E.
  destruct Ha as [[la ->]|[sa ->]], Hb as [[lb ->]|[sb ->]];
    destruct E as [E|[_ E]]; discriminate E.
Qed.

Lemma predict_match_outcome_returns_witness :
  exists p,
    predict_match_outcome {| pick := 0; frac := 0 |} "rugby" (VStr "Lions") (VStr "Tigers")
      (VStr "WWL") (VList [VStr "W"]) = Ok p.
Proof.
  apply predict_match_outcome_returns; [right | left]; eexists; reflexivity.
Defined.

(** The confidence reported for a win is the two-decimal value
    [0.50 + 0.05 d] for a lead of [d] wins, and [0.95] from a lead of nine. *)
Theorem win_confidence_value rnd sport team_a team_b team_a_form team_b_form wa wb :
  py_count team_a_form = Ok wa -> py_count team_b_form = Ok wb ->
  wb < wa -> wa - wb < 2 ^ 63 ->
  predict_match_outcome rnd sport team_a team_b team_a_form team_b_form
  = Ok (Win team_a team_b (nearest_float (50 + 5 * Z.min (wa - wb) 9) 100)).
Proof.
  intros Ha Hb H Hfit. rewrite (predict_team_a _ _ _ _ _ _ _ _ Ha Hb H).
  rewrite confidence_value by lia. reflexivity.
Qed.

Lemma win_confidence_value_witness :
  predict_match_outcome {| pick := 0; frac := 0 |} "football" (VStr "Lions") (VStr "Tigers")
    (VList [VStr "W"; VStr "W"; VStr "W"; VStr "D"]) (VList [VStr "L"; VStr "D"])
  = Ok (Win (VStr "Lions") (VStr "Tigers") 0.65).
Proof.
  exact (win_confidence_value {| pick := 0; frac := 0 |} "football" (VStr "Lions")
           (VStr "Tigers") (VList [VStr "W"; VStr "W"; VStr "W"; VStr "D"])
           (VList [VStr "L"; VStr "D"]) 3 0 eq_refl eq_refl eq_refl eq_refl).
Defined.

(** A larger lead never lowers the confidence. *)
Theorem confidence_monotone d d' :
  0 <= d <= d' -> d' < 2 ^ 63 -> (confidence d <=? confidence d')%float = true.
Proof.
  intros Hd Hd'. rewrite !confidence_value by lia.
  assert (Hk : 0 <= Z.min d 9 <= 9) by lia.
  assert (Hk' : 0 <= Z.min d' 9 <= 9) by lia.
  assert (Hle : Z.min d 9 <= Z.min d' 9) by lia.
  revert Hk Hk' Hle. generalize (Z.min d 9) (Z.min d' 9). intros k k' Hk Hk' Hle.
  small_cases k ltac:(small_cases k' ltac:(first [vm_compute; reflexivity | exfalso; lia])).
Qed.

Lemma confidence_monotone_witness : (confidence 2 <=? confidence 7)%float = true.
Proof. apply (confidence_monotone 2 7); lia. Defined.

(** Whatever is returned, the confidence lies in [[0.3, 0.95]]; that of a
    win record is at least [0.5] and is a fixed point of [round(_, 2)]. *)
Theorem confidence_bounds rnd sport team_a team_b team_a_form team_b_form p :
  predict_match_outcome rnd sport team_a team_b team_a_form team_b_form = Ok p ->
  match p with
  | Win _ _ c =>
      (0.5 <=? c)%float = true /\ (c <=? 0.95)%float = true /\ py_round c 2 = c
  | Draw c => (0.3 <=? c)%float = true /\ (c <=? 0.5)%float = true
  end.
Proof.
  unfold predict_match_outcome.
  destruct (py_count team_a_form) as [wa|ea]; cbn [bind]; [|discriminate].
  destruct (py_count team_b_form) as [wb|eb]; cbn [bind]; [|discriminate].
  assert (T : (0.5 <=? 0.5)%float = true /\ (0.5 <=? 0.95)%float = true /\
              py_round 0.5 2 = 0.5%float) by (repeat split; vm_compute; reflexivity).
  assert (W : forall d, (0.5 <=? confidence d)%float = true /\
                        (confidence d <=? 0.95)%float = true /\
                        py_round (confidence d) 2 = confidence d).
  { intros d. destruct (confidence_range d). auto using confidence_two_decimals. }
  destruct (wa >? wb).
  { intros H. injection H as <-. exact (W (wa - wb)). }
  destruct (wb >? wa).
  { intros H. injection H as <-. exact (W (wb - wa)). }
  unfold win_record. rewrite tie_confidence.
  destruct (String.eqb sport "football").
  - destruct (py_eq _ _); intros H; injection H as <-; [apply uniform_range | exact T].
  - intros H. injection H as <-. exact T.
Qed.

Lemma confidence_bounds_witness :
  (0.3 <=? 0.4)%float = true /\ (0.4 <=? 0.5)%float = true.
Proof.
  exact (confidence_bounds {| pick := 2; frac := 2 ^ 52 |} "football" (VStr "Lions")
           (VStr "Tigers") (VList []) (VList []) (Draw 0.4) eq_refl).
Defined.

(** A draw record is returned on football ties only. *)
Theorem draw_only_on_football_tie rnd sport team_a team_b team_a_form team_b_form c :
  predict_match_outcome rnd sport team_a team_b team_a_form team_b_form = Ok (Draw c) ->
  sport = "football" /\ py_count team_a_form = py_count team_b_form
  /\ c = uniform rnd 0.3 0.5.
Proof.
  unfold predict_match_outcome.
  destruct (py_count team_a_form) as [wa|ea]; cbn [bind]; [|discriminate].
  destruct (py_count team_b_form) as [wb|eb]; cbn [bind]; [|discriminate].
  destruct (Z.gtb_spec wa wb) as [_|Hab]; [discriminate|].
  destruct (Z.gtb_spec wb wa) as [_|Hba]; [discriminate|].
  destruct (String.eqb_spec sport "football") as [->|_]; [|discriminate].
  destruct (py_eq _ _); [|discriminate].
  intros E. injection E as <-. repeat split. f_equal. lia.
Qed.

Lemma draw_only_on_football_tie_witness :
  "football" = "football" /\ py_count (VList [VStr "D"]) = py_count (VList [VStr "L"])
  /\ 0.4%float = uniform {| pick := 2; frac := 2 ^ 52 |} 0.3 0.5.
Proof.
  exact (draw_only_on_football_tie {| pick := 2; frac := 2 ^ 52 |} "football" (VStr "Lions")
           (VStr "Tigers") (VList [VStr "D"]) (VList [VStr "L"]) 0.4 eq_refl).
Defined.

(** A win record names the two teams of the call, one as winner and the
    other as loser. *)
Theorem winner_and_loser_are_the_teams rnd sport (team_a team_b : string)
    team_a_form team_b_form winner loser c :
  predict_match_outcome rnd sport (VStr team_a) (VStr team_b) team_a_form team_b_form
    = Ok (Win winner loser c) ->
  (winner = VStr team_a /\ loser = VStr team_b) \/
  (winner = VStr team_b /\ loser = VStr team_a).
Proof.
  intros H.
  destruct (py_count team_a_form) as [wa|ea] eqn:Ea;
    [|unfold predict_match_outcome in H; rewrite Ea in H; discriminate H].
  destruct (py_count team_b_form) as [wb|eb] eqn:Eb;
    [|unfold predict_match_outcome in H; rewrite Ea, Eb in H; discriminate H].
  destruct (Z.lt_trichotomy wa wb) as [L|[E|G]].
  - rewrite (predict_team_b _ _ _ _ _ _ _ _ Ea Eb L) in H. injection H as <- <- _. auto.
  - subst wb. rewrite (predict_tie _ _ _ _ _ _ _ Ea Eb) in H.
    rewrite choice3, choice2 in H.
    destruct (String.eqb sport "football").
    + destruct (pick rnd mod 3)%nat as [|[|n]]; cbv iota in H; rewrite ?py_eq_str in H.
      * rewrite String.eqb_refl in H.
        destruct (String.eqb team_a "Draw"); [discriminate H|].
        injection H as <- <- _. auto.
      * destruct (String.eqb team_b "Draw"); [discriminate H|].
        destruct (String.eqb_spec team_b team_a) as [->|_]; injection H as <- <- _; auto.
      * discriminate H.
    + destruct (pick rnd mod 2)%nat as [|n]; cbv iota in H; rewrite ?py_eq_str in H.
      * rewrite String.eqb_refl in H. injection H as <- <- _. auto.
      * destruct (String.eqb_spec team_b team_a) as [->|_]; injection H as <- <- _; auto.
  - rewrite (predict_team_a _ _ _ _ _ _ _ _ Ea Eb G) in H. injection H as <- <- _. auto.
Qed.

Lemma winner_and_loser_are_the_teams_witness :
  (VStr "Tigers" = VStr "Lions" /\ VStr "Lions" = VStr "Tigers") \/
  (VStr "Tigers" = VStr "Tigers" /\ VStr "Lions" = VStr "Lions").
Proof.
  exact (winner_and_loser_are_the_teams {| pick := 1; frac := 0 |} "rugby" "Lions" "Tigers"
           (VList []) (VList []) (VStr "Tigers") (VStr "Lions") 0.5 eq_refl).
Defined.

(** On a football tie between teams not named ['Draw'] each of the three
    outcomes is produced by some value of the random source. *)
Theorem football_tie_outcomes_all_occur (team_a team_b : string) team_a_form team_b_form w :
  py_count team_a_form = Ok w -> py_count team_b_form = Ok w ->
  team_a <> "Draw" -> team_b <> "Draw" ->
  (exists rnd, predict_match_outcome rnd "football" (VStr team_a) (VStr team_b)
                 team_a_form team_b_form = Ok (Win (VStr team_a) (VStr team_b) 0.5))
  /\ (exists rnd, predict_match_outcome rnd "football" (VStr team_a) (VStr team_b)
                    team_a_form team_b_form = Ok (Win (VStr team_b) (VStr team_a) 0.5))
  /\ (exists rnd c, predict_match_outcome rnd "football" (VStr team_a) (VStr team_b)
                      team_a_form team_b_form = Ok (Draw c)).
Proof.
  intros Ha Hb Na Nb. split; [|split].
  - exists {| pick := 0; frac := 0 |}.
    exact (football_tie_cases {| pick := 0; frac := 0 |} _ _ _ _ _ Ha Hb Na Nb).
  - exists {| pick := 1; frac := 0 |}.
    exact (football_tie_cases {| pick := 1; frac := 0 |} _ _ _ _ _ Ha Hb Na Nb).
  - exists {| pick := 2; frac := 0 |}, (uniform {| pick := 2; frac := 0 |} 0.3 0.5).
    exact (football_tie_cases {| pick := 2; frac := 0 |} _ _ _ _ _ Ha Hb Na Nb).
Qed.

Lemma football_tie_outcomes_all_occur_witness :
  (exists rnd, predict_match_outcome rnd "football" (VStr "Lions") (VStr "Tigers")
                 (VList [VStr "W"]) (VList [VStr "W"])
               = Ok (Win (VStr "Lions") (VStr "Tigers") 0.5))
  /\ (exists rnd, predict_match_outcome rnd "football" (VStr "Lions") (VStr "Tigers")
                    (VList [VStr "W"]) (VList [VStr "W"])
                  = Ok (Win (VStr "Tigers") (VStr "Lions") 0.5))
  /\ (exists rnd c, predict_match_outcome rnd "football" (VStr "Lions") (VStr "Tigers")
                      (VList [VStr "W"]) (VList [VStr "W"]) = Ok (Draw c)).
Proof.
  apply (football_tie_outcomes_all_occur "Lions" "Tigers" (VList [VStr "W"])
           (VList [VStr "W"]) 1 eq_refl eq_refl); intros H; discriminate H.
Defined.

(** ** Forms are read through their ['W'] entries *)

Lemma py_eq_VStr x s : py_eq x (VStr s) = true <-> x = VStr s.
Proof.
  split.
  - destruct x; cbn [py_eq]; try discriminate. intros H. apply String.eqb_eq in H. now subst.
  - intros ->. apply String.eqb_refl.
Qed.

Lemma count_W_cons x l :
  count_W (x :: l) = (if py_eq x (VStr W) then 1 else 0) + count_W l.
Proof.
  unfold count_W. cbn [filter]. destruct (py_eq x (VStr W)); cbn [List.length]; lia.
Qed.

Lemma count_W_permutation l l' : Permutation l l' -> count_W l = count_W l'.
Proof.
  induction 1 as [|x l l' _ IH|x y l|l l' l'' _ IH1 _ IH2].
  - reflexivity.
  - rewrite !count_W_cons, IH. reflexivity.
  - rewrite !count_W_cons. lia.
  - congruence.
Qed.

(** The order of the entries of a form does not matter. *)
Theorem reordering_forms rnd sport team_a team_b la la' lb lb' :
  Permutation la la' -> Permutation lb lb' ->
  predict_match_outcome rnd sport team_a team_b (VList la) (VList lb)
  = predict_match_outcome rnd sport team_a team_b (VList la') (VList lb').
Proof.
  intros Ha Hb. unfold predict_match_outcome. cbn [py_count].
  rewrite (count_W_permutation _ _ Ha), (count_W_permutation _ _ Hb). reflexivity.
Qed.

Lemma reordering_forms_witness :
  predict_match_outcome {| pick := 1; frac := 3 |} "football" (VStr "Lions") (VStr "Tigers")
    (VList [VStr "W"; VStr "L"]) (VList [VStr "D"])
  = predict_match_outcome {| pick := 1; frac := 3 |} "football" (VStr "Lions") (VStr "Tigers")
      (VList [VStr "L"; VStr "W"]) (VList [VStr "D"]).
Proof.
  apply (reordering_forms {| pick := 1; frac := 3 |} "football" (VStr "Lions") (VStr "Tigers")
           [VStr "W"; VStr "L"] [VStr "L"; VStr "W"] [VStr "D"] [VStr "D"]).
  - apply perm_swap.
  - apply Permutation_refl.
Defined.

Lemma count_W_draws_to_losses l : count_W (draws_to_losses l) = count_W l.
Proof.
  induction l as [|x l IH]; [reflexivity|].
  unfold draws_to_losses in *. cbn [map]. rewrite !count_W_cons, IH. f_equal.
  destruct (py_eq x (VStr "D")) eqn:E; [|reflexivity].
  apply py_eq_VStr in E. subst x. reflexivity.
Qed.

(** Draws and losses weigh the same: turning every ['D'] of a form into
    ['L'] changes nothing. *)
Theorem draws_count_as_losses rnd sport team_a team_b la lb :
  predict_match_outcome rnd sport team_a team_b
    (VList (draws_to_losses la)) (VList (draws_to_losses lb))
  = predict_match_outcome rnd sport team_a team_b (VList la) (VList lb).
Proof.
  unfold predict_match_outcome. cbn [py_count].
  rewrite !count_W_draws_to_losses. reflexivity.
Qed.

Lemma count_char_chars s : count_char "W"%char s = count_W (chars s).
Proof.
  induction s as [|c s IH]; [reflexivity|].
  cbn [chars count_char]. rewrite count_W_cons, IH. f_equal.
  unfold W. cbn [py_eq String.eqb]. destruct (Ascii.eqb c "W"); reflexivity.
Qed.

(** A form given as a string counts like the list of its characters. *)
Theorem string_form_counts_characters rnd sport team_a team_b sa sb :
  predict_match_outcome rnd sport team_a team_b (VStr sa) (VStr sb)
  = predict_match_outcome rnd sport team_a team_b (VList (chars sa)) (VList (chars sb)).
Proof.
  unfold predict_match_outcome. cbn [py_count]. rewrite !count_char_chars. reflexivity.
Qed.

(** * Further properties of the endpoint *)

Lemma find_ext_in {A : Type} (f g : A -> bool) l :
  (forall x, In x l -> f x = g x) -> find f l = find g l.
Proof.
  induction l as [|x l IH]; intros H; [reflexivity|]. cbn [find].
  rewrite <- (H x) by (left; reflexivity).
  destruct (f x); [reflexivity|]. apply IH. intros y Hy. apply H. right. exact Hy.
Qed.

Lemma find_none_all_present d fields :
  find (fun f => negb (has_key f d)) fields = None ->
  forall f, In f fields -> In f (map fst d).
Proof.
  intros H f Hf. apply has_key_In.
  pose proof (find_none _ _ H f Hf) as E. cbv beta in E.
  destruct (has_key f d); [reflexivity | discriminate E].
Qed.

(** The view on a non-empty dict, with the field loop and the four plain
    [get] calls resolved. *)
Lemma predict_dict lower rnd d : d <> [] ->
  predict lower rnd (VDict d) =
  match find (fun f => negb (has_key f d)) required_fields with
  | Some field => Ok (JsonError ("Missing field: " ++ field), 400)
  | None =>
      sport <- py_lower lower (dict_get d "sport") ;;
      if negb (existsb (String.eqb sport) supported_sports) then
        Ok (JsonError ("Sport '" ++ sport ++ "' is not supported. Supported sports are: "
                         ++ repr_strs supported_sports), 400)
      else
        match predict_match_outcome rnd sport (dict_get d "team_a") (dict_get d "team_b")
                (dict_get d "team_a_form") (dict_get d "team_b_form") with
        | Ok prediction_result => Ok (JsonPrediction prediction_result, 200)
        | Raise e =>
            Ok (JsonErrorDetails "An error occurred during prediction." (exn_str e), 500)
        end
  end.
Proof.
  intros Hd. destruct d as [|kv d]; [contradiction|].
  unfold predict. cbn [truthy negb]. rewrite first_missing_dict. cbn [bind].
  destruct (find _ required_fields); reflexivity.
Qed.

(** Error bodies go with status 400, a caught failure of the prediction
    with 500, and a prediction with 200. *)
Theorem status_matches_body lower rnd data b status :
  predict lower rnd data = Ok (b, status) ->
  match b with
  | JsonError _ => status = 400
  | JsonErrorDetails _ _ => status = 500
  | JsonPrediction _ => status = 200
  end.
Proof.
  unfold predict. destruct (truthy data); cbn [negb];
    [|intros H; injection H as <- <-; reflexivity].
  destruct (first_missing required_fields data) as [[field|]|e]; cbn [bind];
    [intros H; injection H as <- <-; reflexivity| |discriminate].
  destruct (py_get data "sport") as [v|e]; cbn [bind]; [|discriminate].
  destruct (py_lower lower v) as [sport|e]; cbn [bind]; [|discriminate].
  destruct (py_get data "team_a") as [a|e]; cbn [bind]; [|discriminate].
  destruct (py_get data "team_b") as [tb|e]; cbn [bind]; [|discriminate].
  destruct (py_get data "team_a_form") as [fa|e]; cbn [bind]; [|discriminate].
  destruct (py_get data "team_b_form") as [fb|e]; cbn [bind]; [|discriminate].
  destruct (negb _); [intros H; injection H as <- <-; reflexivity|].
  destruct (predict_match_outcome _ _ _ _ _ _); intros H; injection H as <- <-; reflexivity.
Qed.

Lemma status_matches_body_witness : 500 = 500.
Proof.
  exact (status_matches_body ascii_lower {| pick := 0; frac := 0 |}
           (VDict [("sport", VStr "rugby"); ("team_a", VStr "Lions"); ("team_b", VStr "Tigers");
                   ("team_a_form", VInt 1); ("team_b_form", VList [])])
           (JsonErrorDetails "An error occurred during prediction."
              "'int' object has no attribute 'count'") 500 eq_refl).
Defined.

(** On a dict the view lets an exception escape in one case only: the five
    fields are there and [sport] is not a string, so that [.lower()] fails. *)
Theorem dict_body_raises lower rnd d e :
  predict lower rnd (VDict d) = Raise e <->
  (forall f, In f required_fields -> In f (map fst d)) /\
  exists v, lookup "sport" d = Some v /\ (forall s, v <> VStr s) /\
            e = AttributeError (type_name v) "lower".
Proof.
  split.
  - intros H. destruct d as [|kv d]; [discriminate H|].
    rewrite predict_dict in H by discriminate.
    destruct (find _ required_fields) eqn:F; [discriminate H|].
    pose proof (find_none_all_present _ _ F) as Hall. split; [exact Hall|].
    assert (Hs : has_key "sport" (kv :: d) = true)
      by (apply has_key_In, Hall; left; reflexivity).
    apply has_key_lookup in Hs. destruct Hs as [v Hv].
    exists v. split; [exact Hv|]. unfold dict_get in H at 1. rewrite Hv in H.
    destruct v as [| | |s| |]; cbn [py_lower bind type_name] in H;
      try (injection H as <-; split; [intros s Hs; discriminate Hs | reflexivity]).
    exfalso. destruct (negb _); [discriminate H|].
    destruct (predict_match_outcome _ _ _ _ _ _); discriminate H.
  - intros [Hall (v & Hv & Hns & ->)].
    assert (Hd : d <> []) by (intros ->; discriminate Hv).
    rewrite (predict_dict _ _ _ Hd), (find_all_present _ _ Hall).
    unfold dict_get at 1. rewrite Hv.
    destruct v as [| | |s| |]; try reflexivity. exfalso. apply (Hns s). reflexivity.
Qed.

(** A body that is a non-zero number or [true] makes the membership test of
    the field loop raise [TypeError]. *)
Theorem scalar_body_raises lower rnd n :
  n <> 0 ->
  predict lower rnd (VInt n) = Raise (TypeError "int")
  /\ predict lower rnd (VBool true) = Raise (TypeError "bool").
Proof.
  intros Hn. split; [|reflexivity].
  unfold predict. cbn [truthy]. apply Z.eqb_neq in Hn. rewrite Hn. reflexivity.
Qed.

Lemma scalar_body_raises_witness :
  predict ascii_lower {| pick := 0; frac := 0 |} (VInt 5) = Raise (TypeError "int")
  /\ predict ascii_lower {| pick := 0; frac := 0 |} (VBool true) = Raise (TypeError "bool").
Proof.
  apply (scalar_body_raises ascii_lower {| pick := 0; frac := 0 |} 5). intros H; discriminate H.
Defined.

(** A request that passes validation but whose first form has no [count]
    is answered with status 500 and the message of the [AttributeError]. *)
Theorem bad_form_gives_500 lower rnd d s :
  (forall f, In f required_fields -> In f (map fst d)) ->
  lookup "sport" d = Some (VStr s) -> In (lower s) supported_sports ->
  (forall l, dict_get d "team_a_form" <> VList l) ->
  (forall t, dict_get d "team_a_form" <> VStr t) ->
  predict lower rnd (VDict d)
  = Ok (JsonErrorDetails "An error occurred during prediction."
          ("'" ++ type_name (dict_get d "team_a_form") ++ "' object has no attribute 'count'"),
        500).
Proof.
  intros Hall Hsport Hsup Hl Ht.
  assert (Hd : d <> []) by (intros ->; discriminate Hsport).
  rewrite (predict_dict _ _ _ Hd), (find_all_present _ _ Hall).
  unfold dict_get at 1. rewrite Hsport. cbn [py_lower bind].
  replace (existsb (String.eqb (lower s)) supported_sports) with true
    by (symmetry; apply existsb_exists; exists (lower s);
        split; [exact Hsup | apply String.eqb_refl]).
  cbn [negb].
  replace (predict_match_outcome rnd (lower s) (dict_get d "team_a") (dict_get d "team_b")
             (dict_get d "team_a_form") (dict_get d "team_b_form"))
    with (@Raise prediction (AttributeError (type_name (dict_get d "team_a_form")) "count")).
  - reflexivity.
  - symmetry. apply raises_iff. left.
    destruct (dict_get d "team_a_form") as [| | |t|l|o]; try reflexivity.
    + exfalso. apply (Ht t). reflexivity.
    + exfalso. apply (Hl l). reflexivity.
Qed.

Lemma bad_form_gives_500_witness :
  predict ascii_lower {| pick := 0; frac := 0 |}
    (VDict [("sport", VStr "Rugby"); ("team_a", VStr "Lions"); ("team_b", VStr "Tigers");
            ("team_a_form", VNone); ("team_b_form", VList [])])
  = Ok (JsonErrorDetails "An error occurred during prediction."
          "'NoneType' object has no attribute 'count'", 500).
Proof.
  apply (bad_form_gives_500 ascii_lower {| pick := 0; frac := 0 |}
           [("sport", VStr "Rugby"); ("team_a", VStr "Lions"); ("team_b", VStr "Tigers");
            ("team_a_form", VNone); ("team_b_form", VList [])] "Rugby").
  - intros f Hf. simpl in *. tauto.
  - reflexivity.
  - simpl. tauto.
  - intros l H. discriminate H.
  - intros t H. discriminate H.
Defined.

(** Only the five required fields of a non-empty object are read. *)
Theorem only_required_fields_matter lower rnd d d' :
  d <> [] -> d' <> [] ->
  (forall k, In k required_fields -> lookup k d = lookup k d') ->
  predict lower rnd (VDict d) = predict lower rnd (VDict d').
Proof.
  intros Hd Hd' Hsame. rewrite !predict_dict by assumption.
  assert (Hfind : find (fun f => negb (has_key f d)) required_fields
                  = find (fun f => negb (has_key f d')) required_fields).
  { apply find_ext_in. intros f Hf. f_equal.
    destruct (has_key f d) eqn:E.
    - symmetry. apply has_key_lookup. rewrite <- (Hsame f Hf). apply has_key_lookup. exact E.
    - destruct (has_key f d') eqn:E'; [|reflexivity].
      apply has_key_lookup in E'. rewrite <- (Hsame f Hf) in E'.
      apply has_key_lookup in E'. congruence. }
  rewrite Hfind.
  assert (Hget : forall k, In k required_fields -> dict_get d k = dict_get d' k)
    by (intros k Hk; unfold dict_get; rewrite (Hsame k Hk); reflexivity).
  rewrite !(Hget "sport"), !(Hget "team_a"), !(Hget "team_b"),
    !(Hget "team_a_form"), !(Hget "team_b_form") by (simpl; tauto).
  reflexivity.
Qed.

Lemma only_required_fields_matter_witness :
  predict ascii_lower {| pick := 0; frac := 0 |}
    (VDict [("sport", VStr "cricket"); ("team_a", VStr "Lions"); ("debug", VBool true)])
  = predict ascii_lower {| pick := 0; frac := 0 |}
      (VDict [("team_a", VStr "Lions"); ("sport", VStr "cricket")]).
Proof.
  apply (only_required_fields_matter ascii_lower {| pick := 0; frac := 0 |}
           [("sport", VStr "cricket"); ("team_a", VStr "Lions"); ("debug", VBool true)]
           [("team_a", VStr "Lions"); ("sport", VStr "cricket")]).
  - intros H; discriminate H.
  - intros H; discriminate H.
  - intros k Hk. simpl in Hk.
    destruct Hk as [<-|[<-|[<-|[<-|[<-|[]]]]]]; reflexivity.
Defined.


